(** * The reaction ledger of the post service

    A shallow embedding of [src/api/post/post.services.js] ([likePost],
    [isPostLikedByUser], [getLikesByPostId], [getPostById]) and of the
    reaction routes of [src/api/post/post.routes.js] and of the comment
    router, over an explicit model of the relational store the services
    reach through the ORM client [db]. *)

From Stdlib Require Import ZArith String Ascii List Bool Lia.
From Stdlib Require Import DecimalString DecimalZ.
From stdpp Require Import base option list gmap strings.

Local Open Scope string_scope.
Local Open Scope list_scope.
Local Open Scope Z_scope.

(** ** JavaScript values that reach the services

    Identifiers arrive from JSON bodies, query strings and path parameters,
    so a service argument is a number, a string, or absent.  A JavaScript
    number is kept exactly when it is an integer, which every id is ([Int z]
    stands for the double of value [z]; ids stay in the range where every
    integer is one); the numbers that no integer column holds are [NaN]
    and, as one value [NonInt], the fractions and the infinities. *)

Inductive jsnum : Type :=
| Int (z : Z)
| NaN
| NonInt.

Inductive jsval : Type :=
| JUndefined
| JNull
| JBool (b : bool)
| JNum (n : jsnum)
| JStr (s : string).

Global Instance jsnum_eq_dec : EqDecision jsnum.
Proof. solve_decision. Defined.

Global Instance jsval_eq_dec : EqDecision jsval.
Proof. solve_decision. Defined.

Module Js.

(** [trim]: the white space [Number] strips on both ends of a string
    (the ASCII part of StrWhiteSpaceChar). *)
Fixpoint trim_start (s : string) : string :=
  match s with
  | EmptyString => EmptyString
  | String c s' => if Ascii.is_space c then trim_start s' else s
  end.

Fixpoint trim_end (s : string) : string :=
  match s with
  | EmptyString => EmptyString
  | String c s' =>
      match trim_end s' with
      | EmptyString => if Ascii.is_space c then EmptyString else String c EmptyString
      | t => String c t
      end
  end.

Definition trim (s : string) : string := trim_end (trim_start s).

(** [Number(s)] on a string: the empty (or blank) string is 0, an
    optionally signed run of decimal digits is that integer.  The model
    reads the decimal integer literals, which is how ids are written; it
    takes every other string for [NaN], also the few (fractions,
    exponents, radix prefixes, [Infinity]) that JavaScript reads as a
    number. *)
Definition StringToNumber (s : string) : jsnum :=
  match trim s with
  | EmptyString => Int 0
  | String c t as str =>
      if Ascii.eqb c "-" then
        from_option (λ d, Int (Z.of_int (Decimal.Neg d))) NaN
                    (NilZero.uint_of_string t)
      else if Ascii.eqb c "+" then
        from_option (λ d, Int (Z.of_int (Decimal.Pos d))) NaN
                    (NilZero.uint_of_string t)
      else
        from_option (λ d, Int (Z.of_int (Decimal.Pos d))) NaN
                    (NilZero.uint_of_string str)
  end.

(** [Number(v)] *)
Definition Number (v : jsval) : jsnum :=
  match v with
  | JUndefined => NaN
  | JNull => Int 0
  | JBool b => Int (if b then 1 else 0)
  | JNum n => n
  | JStr s => StringToNumber s
  end.

(** [String(n)] of an integer: its decimal numeral. *)
Definition ToString (z : Z) : string := NilZero.string_of_int (Z.to_int z).

(** Strings without white space, and strings of decimal digits. *)
Fixpoint no_space (s : string) : bool :=
  match s with
  | EmptyString => true
  | String c s' => negb (Ascii.is_space c) && no_space s'
  end.

Fixpoint all_digits (s : string) : bool :=
  match s with
  | EmptyString => true
  | String c s' => bool_decide (is_Some (Ascii.is_nat c)) && all_digits s'
  end.

(** Truthiness, as tested by [!v] and [v ? a : b]. *)
Definition truthy (v : jsval) : bool :=
  match v with
  | JUndefined | JNull => false
  | JBool b => b
  | JNum (Int z) => negb (z =? 0)
  | JNum NaN => false
  | JNum NonInt => true
  | JStr s => negb (String.eqb s EmptyString)
  end.

End Js.

(** ** The relational store

    The tables the services touch.  [posts_rels] is the shared relation
    table: a row links a parent post to a user (a reaction) or to a tag,
    and [path] tells which.  Rows are kept in storage order; [posts_rels_seq]
    is the next value of the table's id sequence. *)

Module Post.
Record t : Type := mk
  { id : Z;
    title : string;
    question : string;
    user_id_id : option Z;
    image_id : option Z;
    image_url : option string }.
End Post.

Module User.
Record t : Type := mk
  { id : Z;
    full_name : option string;
    avatar_url : option string;
    avatar : option string;
    email : string;
    password : string }.
End User.

Module Tag.
Record t : Type := mk { id : Z; name : string }.
End Tag.

Module Rel.
Record t : Type := mk
  { id : Z;
    parent_id : Z;
    user_id : option Z;
    tags_id : option Z;
    path : string }.

Global Instance eq_dec : EqDecision t.
Proof. solve_decision. Defined.

(** A [where] clause on the relation table: [parent_id] and [path] are
    always given, [user_id] only by the point lookups. *)
Definition matches (w_parent_id : Z) (w_user_id : option Z) (w_path : string)
    (r : t) : bool :=
  bool_decide (parent_id r = w_parent_id)
  && match w_user_id with
     | Some u => bool_decide (user_id r = Some u)
     | None => true
     end
  && bool_decide (path r = w_path).
End Rel.

Record DB : Type := mkDB
  { posts : list Post.t;
    users : list User.t;
    tags : list Tag.t;
    posts_rels : list Rel.t;
    posts_rels_seq : Z }.

(** The row of a table with primary key [id]. *)
Definition lookup_post (id : Z) (db : DB) : option Post.t :=
  find (λ post, bool_decide (Post.id post = id)) (posts db).

Definition lookup_user (id : Z) (db : DB) : option User.t :=
  find (λ user, bool_decide (User.id user = id)) (users db).

Definition lookup_tag (id : Z) (db : DB) : option Tag.t :=
  find (λ tag, bool_decide (Tag.id tag = id)) (tags db).

Definition set_posts_rels (rows : list Rel.t) (seq : Z) (db : DB) : DB :=
  {| posts := posts db; users := users db; tags := tags db;
     posts_rels := rows; posts_rels_seq := seq |}.

(** ** Effects: state and exceptions

    An [async] service reads and writes the store and may throw; an
    exception keeps the writes made before it (no service here opens a
    transaction). *)

Inductive exn : Type :=
| Error (message : string)
| PrismaClientValidationError
| PrismaClientKnownRequestError (code : string).

Definition M (A : Type) : Type := DB → (exn + A) * DB.

Global Instance M_ret : MRet M := λ A a db, (inr a, db).

Global Instance M_bind : MBind M := λ A B f m db,
  match m db with
  | (inr a, db') => f a db'
  | (inl e, db') => (inl e, db')
  end.

Global Instance M_throw : MThrow exn M := λ A e db, (inl e, db).

Definition gets {A : Type} (f : DB → A) : M A := λ db, (inr (f db), db).

Definition modify (f : DB → DB) : M unit := λ db, (inr (), f db).

(** The client validates an argument against the column type before it
    queries: a number that is not an integer is refused for an [Int]
    field. *)
Definition as_int (n : jsnum) : M Z :=
  match n with
  | Int z => mret z
  | NaN | NonInt => mthrow PrismaClientValidationError
  end.

Module Prisma.

(** [db.posts.findUnique({ where: { id } })] *)
Definition posts_findUnique (id : jsnum) : M (option Post.t) :=
  id ← as_int id;
  gets (lookup_post id).

(** [db.posts_rels.findFirst({ where: { parent_id, user_id, path } })]: the
    first matching row in storage order. *)
Definition posts_rels_findFirst (parent_id : jsnum) (user_id : jsnum)
    (path : string) : M (option Rel.t) :=
  p ← as_int parent_id;
  u ← as_int user_id;
  gets (λ db, find (Rel.matches p (Some u) path) (posts_rels db)).

(** [db.posts_rels.delete({ where: { id } })]: removes the row with that
    primary key; no such row is error P2025. *)
Definition posts_rels_delete (id : Z) : M unit :=
  present ← gets (λ db, existsb (λ r, bool_decide (Rel.id r = id)) (posts_rels db));
  if present : bool then
    modify (λ db, set_posts_rels (filter (λ r, Rel.id r ≠ id) (posts_rels db))
                                 (posts_rels_seq db) db)
  else mthrow (PrismaClientKnownRequestError "P2025").

(** [db.posts_rels.create({ data: { parent_id, user_id, path } })]: the
    row is appended under the next id of the sequence.  The services write
    an edge without looking the user up, and the sources show no constraint
    that would: none is modelled. *)
Definition posts_rels_create (parent_id : jsnum) (user_id : jsnum)
    (path : string) : M Rel.t :=
  p ← as_int parent_id;
  u ← as_int user_id;
  row ← gets (λ db, Rel.mk (posts_rels_seq db) p (Some u) None path);
  modify (λ db, set_posts_rels (posts_rels db ++ [row]) (posts_rels_seq db + 1) db);;
  mret row.

(** [db.posts_rels.count({ where: { parent_id, path } })] *)
Definition posts_rels_count (parent_id : jsnum) (path : string) : M nat :=
  p ← as_int parent_id;
  gets (λ db, length (filter (λ r, Rel.matches p None path r = true) (posts_rels db))).

(** The relation [user] of a row, as [include: { user: true }] loads it:
    the user the row points at, [null] when there is none. *)
Definition include_user (db : DB) (r : Rel.t) : option User.t :=
  u ← Rel.user_id r; lookup_user u db.

(** The relation [tags] of a row, as [include: { tags: true }] loads it. *)
Definition include_tags (db : DB) (r : Rel.t) : option Tag.t :=
  t ← Rel.tags_id r; lookup_tag t db.

(** [db.posts_rels.findMany({ where: { parent_id, path }, include })]:
    the matching rows in storage order, each with the relation [include]
    names. *)
Definition posts_rels_findMany {A : Type} (parent_id : jsnum) (path : string)
    (include : DB → Rel.t → A) : M (list (Rel.t * A)) :=
  p ← as_int parent_id;
  gets (λ db, map (λ r, (r, include db r))
                  (filter (λ r, Rel.matches p None path r = true) (posts_rels db))).

(** The relation [posts_rels] of a post, as [include: { posts_rels: true }]
    loads it: the rows whose parent is the post. *)
Definition include_posts_rels (db : DB) (p : Post.t) : list Rel.t :=
  filter (λ r, Rel.parent_id r = Post.id p) (posts_rels db).

End Prisma.

(** ** The post service *)

Definition IMAGE_BASE_URL : string := "https://qauff8c31y.ufs.sh/f/".

Record like_result : Type := mk_like_result
  { liked : bool;
    likeCount : nat;
    message : string }.

(** The public part of a user: what the services copy out of a user row. *)
Record user_summary : Type := mk_user_summary
  { us_id : Z;
    us_full_name : option string;
    us_avatar_url : option string;
    us_avatarUrl : option string }.

Record like_entry : Type := mk_like_entry
  { le_id : Z;
    le_userId : option Z;
    le_user : option user_summary }.

Record post_view : Type := mk_post_view
  { pv_post : Post.t;
    pv_posts_rels : list Rel.t;
    pv_user : option user_summary;
    pv_likeCount : nat;
    pv_tags : list Tag.t }.

(** [{ id, full_name, avatar_url, avatarUrl: user.avatar ? `${IMAGE_BASE_URL}${user.avatar}` : null }] *)
Definition summarize (user : User.t) : user_summary :=
  {| us_id := User.id user;
     us_full_name := User.full_name user;
     us_avatar_url := User.avatar_url user;
     us_avatarUrl :=
       match User.avatar user with
       | Some a => if String.eqb a EmptyString then None else Some (IMAGE_BASE_URL +:+ a)
       | None => None
       end |}.

Definition likePost (postId userId : jsval) : M like_result :=
  let postId := Js.Number postId in
  let userId := Js.Number userId in
  post ← Prisma.posts_findUnique postId;
  match post with
  | None => mthrow (Error "Post not found")
  | Some _ =>
      existingLike ← Prisma.posts_rels_findFirst postId userId "likedBy";
      match existingLike with
      | Some existingLike =>
          Prisma.posts_rels_delete (Rel.id existingLike);;
          likeCount ← Prisma.posts_rels_count postId "likedBy";
          mret {| liked := false;
                  likeCount := likeCount;
                  message := "Post unliked successfully" |}
      | None =>
          Prisma.posts_rels_create postId userId "likedBy";;
          likeCount ← Prisma.posts_rels_count postId "likedBy";
          mret {| liked := true;
                  likeCount := likeCount;
                  message := "Post liked successfully" |}
      end
  end.

Definition isPostLikedByUser (postId userId : jsval) : M bool :=
  let postId := Js.Number postId in
  let userId := Js.Number userId in
  like ← Prisma.posts_rels_findFirst postId userId "likedBy";
  mret (bool_decide (is_Some like)).

Definition getLikesByPostId (postId : jsval) : M (list like_entry) :=
  let postId := Js.Number postId in
  likes ← Prisma.posts_rels_findMany postId "likedBy" Prisma.include_user;
  mret (map (λ like : Rel.t * option User.t,
               {| le_id := Rel.id like.1;
                  le_userId := Rel.user_id like.1;
                  le_user := summarize <$> like.2 |})
            likes).

(** [getPostById]: [tags.map(rel => rel.tags).filter(Boolean)] keeps the
    tags that were loaded.  The image URL the function also formats is left
    out of the view. *)
Definition getPostById (id : jsval) : M (option post_view) :=
  let id := Js.Number id in
  post ← Prisma.posts_findUnique id;
  match post with
  | None => mret None
  | Some post =>
      db ← gets (λ db, db);
      let posts_rels := Prisma.include_posts_rels db post in
      let likeCount := length (filter (λ rel, Rel.path rel = "likedBy") posts_rels) in
      tags ← Prisma.posts_rels_findMany id "tags" Prisma.include_tags;
      mret (Some {| pv_post := post;
                    pv_posts_rels := posts_rels;
                    pv_user := summarize <$> (u ← Post.user_id_id post; lookup_user u db);
                    pv_likeCount := likeCount;
                    pv_tags := omap snd tags |})
  end.

(** ** The HTTP boundary

    A handler reads the request, may call a service, and either answers
    with a status and a JSON payload or hands the error to [next]. *)

Record request : Type := mk_request
  { body : gmap string jsval;
    query : gmap string jsval;
    params : gmap string jsval }.

(** [o.k], [undefined] when the object has no such property. *)
Definition prop (o : gmap string jsval) (k : string) : jsval :=
  default JUndefined (o !! k).

Inductive payload (A : Type) : Type :=
| ErrorBody (error : string)
| Json (a : A).
Global Arguments ErrorBody {A} error.
Global Arguments Json {A} a.

Inductive outcome (A : Type) : Type :=
| Respond (status : nat) (p : payload A)
| Next (e : exn).
Global Arguments Respond {A} status p.
Global Arguments Next {A} e.

Definition handler (A : Type) : Type := request → DB → outcome A * DB.

(** [try { r = await m; ok(r) } catch (error) { handle(error) }] *)
Definition try_catch {A B : Type} (m : M A) (ok : A → outcome B)
    (handle : exn → outcome B) : DB → outcome B * DB :=
  λ db, match m db with
        | (inr a, db') => (ok a, db')
        | (inl e, db') => (handle e, db')
        end.

(** [error.message === m]; the messages of the client's own errors are
    diagnostics of the failed query, none of them [m]. *)
Definition message_is (error : exn) (m : string) : bool :=
  match error with
  | Error m' => String.eqb m' m
  | _ => false
  end.

Module PostRouter.

(** [router.post('/like', ...)] *)
Definition like : handler like_result := λ req,
  let postId := prop (body req) "postId" in
  let userId := prop (body req) "userId" in
  if negb (Js.truthy postId) || negb (Js.truthy userId) then
    λ db, (Respond 400 (ErrorBody "Missing required fields: postId or userId"), db)
  else
    try_catch (likePost postId userId)
      (λ result, Respond 200 (Json result))
      (λ error,
         if message_is error "Post not found" then
           Respond 404 (ErrorBody "Post not found")
         else Respond 500 (ErrorBody "Internal server error")).

(** [router.get('/:postId/is-liked', ...)] *)
Definition is_liked : handler bool := λ req,
  let postId := prop (params req) "postId" in
  let userId := prop (query req) "userId" in
  if negb (Js.truthy userId) then
    λ db, (Respond 400 (ErrorBody "Missing required query parameter: userId"), db)
  else
    try_catch (isPostLikedByUser postId userId)
      (λ liked, Respond 200 (Json liked))
      (λ error, Respond 500 (ErrorBody "Internal server error")).

(** [router.get('/:postId/likes', ...)] *)
Definition likes : handler (list like_entry) := λ req,
  let postId := prop (params req) "postId" in
  try_catch (getLikesByPostId postId)
    (λ likes, Respond 200 (Json likes))
    (λ error, Respond 500 (ErrorBody "Internal server error")).

End PostRouter.

(** The comment router calls [comment.services], whose code is not among
    the sources: the handlers take its functions as parameters. *)
Module CommentRouter.
Section services.
Context {R U : Type}.
Variable likeComment : jsval → jsval → M R.
Variable dislikeComment : jsval → jsval → M R.
Variable unlikeComment : jsval → jsval → M U.
Variable isCommentLikedByUser : jsval → jsval → M bool.

(** [router.post('/like-comment/:id', ...)] *)
Definition like_comment : handler R := λ req,
  let userId := prop (body req) "userId" in
  let commentId := prop (params req) "id" in
  try_catch (likeComment commentId userId)
    (λ result, Respond 200 (Json result))
    (λ error, Next error).

(** [router.post('/dislike-comment/:id', ...)] *)
Definition dislike_comment : handler R := λ req,
  let userId := prop (body req) "userId" in
  let commentId := prop (params req) "id" in
  try_catch (dislikeComment commentId userId)
    (λ result, Respond 200 (Json result))
    (λ error, Next error).

(** [router.post('/unlike-comment/:id', ...)] *)
Definition unlike_comment : handler U := λ req,
  let userId := prop (body req) "userId" in
  let commentId := prop (params req) "id" in
  if negb (Js.truthy userId) then
    λ db, (Respond 400 (ErrorBody "Missing required field: userId"), db)
  else
    try_catch (unlikeComment commentId userId)
      (λ result, Respond 200 (Json result))
      (λ error,
         if message_is error "Bình luận không tồn tại" then
           Respond 404 (ErrorBody "Comment not found")
         else Next error).

(** [router.get('/:commentId/is-liked', ...)] *)
Definition is_liked : handler bool := λ req,
  let commentId := prop (params req) "commentId" in
  let userId := prop (query req) "userId" in
  if negb (Js.truthy userId) then
    λ db, (Respond 400 (ErrorBody "Missing required query parameter: userId"), db)
  else
    try_catch (isCommentLikedByUser commentId userId)
      (λ liked, Respond 200 (Json liked))
      (λ error, Respond 500 (ErrorBody "Internal server error")).

End services.
End CommentRouter.

(** ** The ledger operations the sources do not contain

    The spec's Reaction Ledger also has [dislike] and [unlike]; the code
    behind them is [comment.services], which is not among the sources. *)

Module Ledger.

(** Modelled from the spec: the storage operation "delete-by-predicate"
    of the relation storage interface, absent from the sources; it
    removes every row that matches (parentId, userId, kind). *)
Definition deleteMany (parent_id user_id : Z) (path : string) : M unit :=
  modify (λ db,
    set_posts_rels
      (filter (λ r, Rel.matches parent_id (Some user_id) path r ≠ true) (posts_rels db))
      (posts_rels_seq db) db).

(** Modelled from the spec: [dislike(targetId, userId)], absent from the
    sources.  "Same toggle semantics, independent edge kind": look up the
    Dislike edge of the pair; delete it when present, create it when
    absent; answer with the refreshed count. *)
Definition dislike (targetId userId : Z) : M (bool * nat) :=
  existing ← Prisma.posts_rels_findFirst (Int targetId) (Int userId) "dislikedBy";
  match existing with
  | Some e =>
      Prisma.posts_rels_delete (Rel.id e);;
      n ← Prisma.posts_rels_count (Int targetId) "dislikedBy";
      mret (false, n)
  | None =>
      Prisma.posts_rels_create (Int targetId) (Int userId) "dislikedBy";;
      n ← Prisma.posts_rels_count (Int targetId) "dislikedBy";
      mret (true, n)
  end.

(** Modelled from the spec: [unlike(targetId, userId)], absent from the
    sources.  "Unconditionally deletes the Like edge if present" (no
    error when it is absent) "and returns the refreshed like count". *)
Definition unlike (targetId userId : Z) : M nat :=
  deleteMany targetId userId "likedBy";;
  Prisma.posts_rels_count (Int targetId) "likedBy".

End Ledger.

(** ** Ledger states *)

(** The edges of kind [path] that user [u] holds on target [p]. *)
Definition edges (path : string) (p u : Z) (db : DB) : list Rel.t :=
  filter (λ r, Rel.parent_id r = p ∧ Rel.user_id r = Some u ∧ Rel.path r = path)
         (posts_rels db).

(** User [u] holds a Like edge on target [p]. *)
Definition has_like (db : DB) (p u : Z) : Prop :=
  ∃ r, r ∈ posts_rels db ∧
       Rel.parent_id r = p ∧ Rel.user_id r = Some u ∧ Rel.path r = "likedBy".

(** The number of edges of kind [path] on target [p]; for Like edges,
    the reaction count. *)
Definition edge_count (path : string) (db : DB) (p : Z) : nat :=
  length (filter (λ r, Rel.parent_id r = p ∧ Rel.path r = path) (posts_rels db)).

Definition like_count (db : DB) (p : Z) : nat := edge_count "likedBy" db p.

(** The Like edges on target [p], in storage order. *)
Definition like_edges (db : DB) (p : Z) : list Rel.t :=
  filter (λ r, Rel.parent_id r = p ∧ Rel.path r = "likedBy") (posts_rels db).

(** The entry [getLikesByPostId] makes of an edge. *)
Definition entry_of (db : DB) (r : Rel.t) : like_entry :=
  {| le_id := Rel.id r;
     le_userId := Rel.user_id r;
     le_user := summarize <$> Prisma.include_user db r |}.

(** Two user rows that agree on every column the services read. *)
Definition public_eq (u1 u2 : User.t) : Prop :=
  User.id u1 = User.id u2 ∧
  User.full_name u1 = User.full_name u2 ∧
  User.avatar_url u1 = User.avatar_url u2 ∧
  User.avatar u1 = User.avatar u2.

(** Two stores that differ at most in the private columns of user rows
    ([email], [password]). *)
Definition low_equiv (db1 db2 : DB) : Prop :=
  posts db1 = posts db2 ∧
  tags db1 = tags db2 ∧
  posts_rels db1 = posts_rels db2 ∧
  posts_rels_seq db1 = posts_rels_seq db2 ∧
  Forall2 public_eq (users db1) (users db2).

(** The store without the row of primary key [id]. *)
Definition deleted (id : Z) (db : DB) : DB :=
  set_posts_rels (filter (λ r, Rel.id r ≠ id) (posts_rels db)) (posts_rels_seq db) db.

(** The store with a new edge of kind [path] from user [u] to target [p]. *)
Definition created (path : string) (p u : Z) (db : DB) : DB :=
  set_posts_rels
    (posts_rels db ++ [Rel.mk (posts_rels_seq db) p (Some u) None path])
    (posts_rels_seq db + 1) db.

(** The core invariant: per (parent, user) at most one Like edge and at
    most one Dislike edge. *)
Definition at_most_one (db : DB) : Prop :=
  ∀ p u, (length (edges "likedBy" p u db) ≤ 1)%nat ∧
         (length (edges "dislikedBy" p u db) ≤ 1)%nat.

(** What the table's primary key and id sequence guarantee: ids are
    unique and the sequence is ahead of all of them. *)
Definition wf_rels (db : DB) : Prop :=
  NoDup (Rel.id <$> posts_rels db) ∧
  ∀ r, r ∈ posts_rels db → Rel.id r < posts_rels_seq db.

(** The invariant of the ledger: the key discipline of the table and the
    at-most-one rule. *)
Definition ledger_inv (db : DB) : Prop := wf_rels db ∧ at_most_one db.

(** A store in which nobody has reacted yet. *)
Definition initial (db : DB) : Prop :=
  wf_rels db ∧
  ∀ r, r ∈ posts_rels db → Rel.path r ≠ "likedBy" ∧ Rel.path r ≠ "dislikedBy".

(** The operations of the ledger, and the store each leaves behind. *)
Inductive op : Type :=
| OpLikePost (postId userId : jsval)
| OpIsPostLikedByUser (postId userId : jsval)
| OpGetLikesByPostId (postId : jsval)
| OpGetPostById (id : jsval)
| OpDislike (targetId userId : Z)
| OpUnlike (targetId userId : Z).

Definition exec (o : op) (db : DB) : DB :=
  match o with
  | OpLikePost postId userId => (likePost postId userId db).2
  | OpIsPostLikedByUser postId userId => (isPostLikedByUser postId userId db).2
  | OpGetLikesByPostId postId => (getLikesByPostId postId db).2
  | OpGetPostById id => (getPostById id db).2
  | OpDislike targetId userId => (Ledger.dislike targetId userId db).2
  | OpUnlike targetId userId => (Ledger.unlike targetId userId db).2
  end.

Fixpoint run (ops : list op) (db : DB) : DB :=
  match ops with
  | [] => db
  | o :: ops' => run ops' (exec o db)
  end.

Definition reachable (db : DB) : Prop :=
  ∃ db0 ops, initial db0 ∧ db = run ops db0.

(** What operation [o], run on [db], does to the Like edge of the pair
    (p, u): [Some true] when it creates the edge, [Some false] when it
    leaves the pair without one (a toggle-off or an unlike); an operation
    on another pair, a failed one or a query passes [acc] on. *)
Definition effect (p u : Z) (o : op) (db : DB) (acc : option bool) : option bool :=
  match o with
  | OpLikePost postId userId =>
      if bool_decide (Js.Number postId = Int p ∧ Js.Number userId = Int u) then
        match (likePost postId userId db).1 with
        | inr result => Some (liked result)
        | inl _ => acc
        end
      else acc
  | OpUnlike targetId userId =>
      if bool_decide (targetId = p ∧ userId = u) then Some false else acc
  | _ => acc
  end.

(** The last effect on the pair (p, u) in a run of operations. *)
Fixpoint last_effect (p u : Z) (ops : list op) (db : DB) (acc : option bool)
    : option bool :=
  match ops with
  | [] => acc
  | o :: ops' => last_effect p u ops' (exec o db) (effect p u o db acc)
  end.

(** ** A small store to run the services on

    Post 7 and users 1 and 2, before anybody reacted. *)

Module Scenario.
Definition post7 : Post.t :=
  Post.mk 7 "Pho" "Where does pho come from?" (Some 1) None None.

Definition user1 : User.t :=
  User.mk 1 (Some "An") None (Some "an.png") "an@example.org" "secret-1".

Definition user2 : User.t :=
  User.mk 2 (Some "Binh") (Some "https://example.org/b.png") None
          "binh@example.org" "secret-2".

Definition db0 : DB :=
  {| posts := [post7]; users := [user1; user2]; tags := [];
     posts_rels := []; posts_rels_seq := 1 |}.

(** The same store with other private columns. *)
Definition db0' : DB :=
  {| posts := [post7];
     users := [User.mk 1 (Some "An") None (Some "an.png") "other@example.org" "x";
               User.mk 2 (Some "Binh") (Some "https://example.org/b.png") None "b@example.net" "y"];
     tags := []; posts_rels := []; posts_rels_seq := 1 |}.

Definition n (z : Z) : jsval := JNum (Int z).
End Scenario.

(** ** Image URLs

    A post shows either its own [image_url] or the URL of its media row.
    The services format that URL from the post row and the media row the
    relation [media] loads ([null] when the post has none). *)

Module Media.
Record t : Type := mk
  { id : Z;
    url : option string;
    key : option string }.
End Media.

Definition UPLOADTHING_BASE_URL : string := "https://uploadthing.com/f/".

(** Truthiness of a nullable text column. *)
Definition filled (s : option string) : bool :=
  match s with
  | Some s => negb (String.eqb s EmptyString)
  | None => false
  end.

(** [key.startsWith('ut_') ? `${UPLOADTHING_BASE_URL}${key}` : `${IMAGE_BASE_URL}${key}`] *)
Definition key_url (key : string) : string :=
  if String.prefix "ut_" key then UPLOADTHING_BASE_URL +:+ key
  else IMAGE_BASE_URL +:+ key.

(** The [imageUrl] of [getPostById] (and of [createPost]): [if] / [else if]
    over the direct URL, the media URL and the media key. *)
Definition imageUrl (post : Post.t) (media : option Media.t) : option string :=
  if bool_decide (Post.image_id post = None) && filled (Post.image_url post) then
    Post.image_url post
  else
    match media with
    | Some media =>
        if filled (Media.url media) then Media.url media
        else if filled (Media.key media) then key_url <$> Media.key media
        else None
    | None => None
    end.

(** The [mediaUrl] of [getAllPosts]: nested conditionals, with the direct
    URL once more as the last resort of a post without media. *)
Definition mediaUrl_all (post : Post.t) (media : option Media.t) : option string :=
  if bool_decide (Post.image_id post = None) && filled (Post.image_url post) then
    Post.image_url post
  else
    match media with
    | Some media =>
        if filled (Media.url media) then Media.url media
        else if filled (Media.key media) then key_url <$> Media.key media
        else None
    | None => if filled (Post.image_url post) then Post.image_url post else None
    end.

(** The [mediaUrl] of [getPostsByUserId]: the same conditionals, [null] for
    a post without media. *)
Definition mediaUrl_by_user (post : Post.t) (media : option Media.t) : option string :=
  if bool_decide (Post.image_id post = None) && filled (Post.image_url post) then
    Post.image_url post
  else
    match media with
    | Some media =>
        if filled (Media.url media) then Media.url media
        else if filled (Media.key media) then key_url <$> Media.key media
        else None
    | None => None
    end.

(** The [imageUrl] of the post [commentPost] returns:
    [post.media && post.media.key ? `${IMAGE_BASE_URL}${post.media.key}` : null] *)
Definition imageUrl_comment (media : option Media.t) : option string :=
  match media with
  | Some media =>
      if filled (Media.key media) then (λ key, IMAGE_BASE_URL +:+ key) <$> Media.key media
      else None
  | None => None
  end.

(** ** Posts in a list

    What [getAllPosts] and [getPostsByUserId] make of one post of the page
    ([posts.map(post => ...)]); the post comes with its relations [user]
    and [posts_rels], each relation row with its [tags].  The comment
    preview and the time stamps of the entry are left out. *)

Record listed_post : Type := mk_listed_post
  { lp_id : Z;
    lp_title : string;
    lp_question : string;
    lp_imageUrl : option string;
    lp_user : option user_summary;
    lp_likeCount : nat;
    lp_tags : list Tag.t }.

Definition format_post (mediaUrl : Post.t → option Media.t → option string)
    (db : DB) (media : option Media.t) (post : Post.t) : listed_post :=
  let posts_rels :=
    map (λ rel, (rel, Prisma.include_tags db rel)) (Prisma.include_posts_rels db post) in
  let likeCount :=
    length (filter (λ rel : Rel.t * option Tag.t, Rel.path rel.1 = "likedBy") posts_rels) in
  (* [.filter(rel => rel.path === 'tags' && rel.tags).map(rel => ({ id, name }))] *)
  let tags :=
    omap (λ rel : Rel.t * option Tag.t,
            if bool_decide (Rel.path rel.1 = "tags") then
              (λ tag, Tag.mk (Tag.id tag) (Tag.name tag)) <$> rel.2
            else None)
         posts_rels in
  {| lp_id := Post.id post;
     lp_title := Post.title post;
     lp_question := Post.question post;
     lp_imageUrl := mediaUrl post media;
     lp_user := summarize <$> (u ← Post.user_id_id post; lookup_user u db);
     lp_likeCount := likeCount;
     lp_tags := tags |}.

Definition getAllPosts_entry := format_post mediaUrl_all.

Definition getPostsByUserId_entry := format_post mediaUrl_by_user.

(** ** Pages

    The list routes read [page] and [limit] off the query string with
    [parseInt(x) || default]; the services turn them into [skip], [take]
    and the page count. *)

Module Paging.

(** The value of a digit or letter as a numeral digit. *)
Definition digit_of (c : ascii) : option Z :=
  let n := Z.of_nat (nat_of_ascii c) in
  if (48 <=? n) && (n <=? 57) then Some (n - 48)
  else if (97 <=? n) && (n <=? 122) then Some (n - 87)
  else if (65 <=? n) && (n <=? 90) then Some (n - 55)
  else None.

(** The longest prefix of digits below [radix], read as a number; [acc]
    is what was read so far, [None] when nothing was. *)
Fixpoint digits (radix : Z) (s : string) (acc : option Z) : option Z :=
  match s with
  | EmptyString => acc
  | String c s' =>
      match digit_of c with
      | Some d =>
          if d <? radix then digits radix s' (Some (default 0 acc * radix + d))
          else acc
      | None => acc
      end
  end.

(** [parseInt(s)]: leading white space, a sign, [0x] or [0X] for radix 16,
    then the longest run of digits; an integer, or NaN ([None]) when there
    is no digit. *)
Definition parseInt (s : string) : option Z :=
  let s := Js.trim_start s in
  let '(sign, s) :=
    match s with
    | String c t =>
        if Ascii.eqb c "-" then (-1, t)
        else if Ascii.eqb c "+" then (1, t)
        else (1, s)
    | EmptyString => (1, s)
    end in
  let '(radix, s) :=
    match s with
    | String c (String x t) =>
        if Ascii.eqb c "0" && (Ascii.eqb x "x" || Ascii.eqb x "X") then (16, t)
        else (10, s)
    | _ => (10, s)
    end in
  (λ z, sign * z) <$> digits radix s None.

(** A query parameter as [parseInt] reads it: its text, the text
    [undefined] when the parameter is absent. *)
Definition text_of (q : option string) : string := default "undefined" q.

(** [parseInt(q) || d] *)
Definition int_or (q : option string) (d : Z) : Z :=
  match parseInt (text_of q) with
  | Some z => if z =? 0 then d else z
  | None => d
  end.

(** [q || d] on text. *)
Definition text_or (q : option string) (d : string) : string :=
  match q with
  | Some s => if String.eqb s EmptyString then d else s
  | None => d
  end.

Record options : Type := mk_options
  { page : Z;
    limit : Z;
    search : string;
    sortBy : string;
    sortOrder : string }.

(** The [options] object of [router.get('/get-all-posts')] and
    [router.get('/get-posts-by-user')]. *)
Definition options_of_query (page limit search sortBy sortOrder : option string)
    : options :=
  {| page := int_or page 1;
     limit := int_or limit 10;
     search := text_or search EmptyString;
     sortBy := text_or sortBy "created_at";
     sortOrder := text_or sortOrder "desc" |}.



(** [Math.ceil(totalCount / limit)]: an integer unless [limit] is 0, when
    the quotient is infinite or NaN ([None]). *)
Definition totalPages (totalCount : nat) (o : options) : option Z :=
  if limit o =? 0 then None
  else Some (- ((- Z.of_nat totalCount) / limit o)).

End Paging.

(** ** Editing the tags of a post

    [updatePost] first writes the post row (and a media row, when an image
    comes with the update), then, when [tags] is an array, replaces the
    post's tag relations; all of it in one transaction. *)

Module Tx.

(** [db.$transaction(async (tx) => ...)]: when the callback throws, the
    tables are as they were before it; a value drawn from an id sequence
    stays drawn. *)
Definition transaction {A : Type} (m : M A) : M A := λ db,
  match m db with
  | (inr a, db') => (inr a, db')
  | (inl e, db') => (inl e, set_posts_rels (posts_rels db) (posts_rels_seq db') db)
  end.

(** [tx.posts_rels.deleteMany({ where: { parent_id, path } })]: removes
    the matching rows and answers how many there were. *)
Definition posts_rels_deleteMany (parent_id : jsnum) (path : string) : M nat :=
  p ← as_int parent_id;
  n ← gets (λ db, length (filter (λ r, Rel.matches p None path r = true) (posts_rels db)));
  modify (λ db, set_posts_rels
                  (filter (λ r, Rel.matches p None path r ≠ true) (posts_rels db))
                  (posts_rels_seq db) db);;
  mret n.

(** [tx.posts_rels.create({ data: { parent_id, tags_id, path } })] *)
Definition posts_rels_create_tag (parent_id tags_id : jsnum) (path : string)
    : M Rel.t :=
  p ← as_int parent_id;
  t ← as_int tags_id;
  row ← gets (λ db, Rel.mk (posts_rels_seq db) p None (Some t) path);
  modify (λ db, set_posts_rels (posts_rels db ++ [row]) (posts_rels_seq db + 1) db);;
  mret row.

(** [for (const x of xs) { await f(x) }] *)
Fixpoint for_of {A : Type} (xs : list A) (f : A → M unit) : M unit :=
  match xs with
  | [] => mret ()
  | x :: xs' => f x;; for_of xs' f
  end.

(** [updatePost(postId, updateData)].  [update_row] stands for the first
    part of the callback, which creates the media row and updates the post
    row ([tx.media.create], [tx.posts.update]) and yields the updated
    post; [tags] is [updateData.tags] when that is an array. *)
Definition updatePost (update_row : M Post.t) (postId : jsval)
    (tags : option (list jsval)) : M Post.t :=
  transaction
    (updated ← update_row;
     match tags with
     | Some tags =>
         posts_rels_deleteMany (Js.Number postId) "tags";;
         for_of tags (λ tagId,
           posts_rels_create_tag (Js.Number postId) (Js.Number tagId) "tags";;
           mret ())
     | None => mret ()
     end;;
     mret updated).

End Tx.

(** A first part of [updatePost] that writes nothing outside the post
    and media tables: it leaves the relation rows and their sequence as
    they are, whether it returns or throws. *)
Definition keeps_rels (update_row : M Post.t) : Prop :=
  ∀ db, posts_rels (update_row db).2 = posts_rels db ∧
        posts_rels_seq (update_row db).2 = posts_rels_seq db ∧
        users (update_row db).2 = users db ∧
        tags (update_row db).2 = tags db.

(** The tag relations of post [p], in storage order. *)
Definition tag_rows (db : DB) (p : Z) : list Rel.t :=
  filter (λ r, Rel.parent_id r = p ∧ Rel.path r = "tags") (posts_rels db).

(** The ids a list of tag ids stands for, when [Number] reads every one
    of them as an integer. *)
Definition as_ids (tagIds : list jsval) : option (list Z) :=
  mapM (λ tagId, match Js.Number tagId with Int z => Some z | _ => None end) tagIds.

(** The store with one more tag relation of post [p], and with one for
    each tag of a list. *)
Definition tag_added (p t : Z) (db : DB) : DB :=
  set_posts_rels
    (posts_rels db ++ [Rel.mk (posts_rels_seq db) p None (Some t) "tags"])
    (posts_rels_seq db + 1) db.

Definition tags_added (p : Z) (ts : list Z) (db : DB) : DB :=
  foldl (λ db t, tag_added p t db) db ts.

(** The store without the tag relations of post [p]. *)
Definition tags_cleared (p : Z) (db : DB) : DB :=
  set_posts_rels
    (filter (λ r, ¬ (Rel.parent_id r = p ∧ Rel.path r = "tags")) (posts_rels db))
    (posts_rels_seq db) db.

(** ** Creating a comment *)

(** [router.post('/create-comment', ...)] of the comment router:
    [createComment({ ...commentData, likes: 0, dislikes: 0 })]. *)
Definition create_comment {R : Type} (createComment : gmap string jsval → M R)
    : handler R := λ req,
  let commentData := body req in
  try_catch
    (createComment (<["dislikes" := JNum (Int 0)]> (<["likes" := JNum (Int 0)]> commentData)))
    (λ newComment, Respond 201 (Json newComment))
    (λ error, Respond 500 (ErrorBody "Internal server error")).

(** ** More rows to run the services on *)

Module Sample.
Definition uploaded : Media.t := Media.mk 3 None (Some "ut_abc123").

Definition stored : Media.t := Media.mk 4 None (Some "pho.png").

Definition post8 : Post.t :=
  Post.mk 8 "Banh mi" "Which bread?" (Some 2) (Some 3) (Some "https://example.org/direct.png").

(** Post 7 with a tag relation to tag 5 and a like of user 1. *)
Definition db1 : DB :=
  {| posts := [Scenario.post7; post8];
     users := [Scenario.user1; Scenario.user2];
     tags := [Tag.mk 5 "food"; Tag.mk 6 "history"];
     posts_rels := [Rel.mk 1 7 None (Some 5) "tags"; Rel.mk 2 7 (Some 1) None "likedBy"];
     posts_rels_seq := 3 |}.

(** A first part of [updatePost] that finds the post or fails with P2025. *)
Definition find_row (p : Z) : M Post.t :=
  post ← Prisma.posts_findUnique (Int p);
  match post with
  | Some post => mret post
  | None => mthrow (PrismaClientKnownRequestError "P2025")
  end.
End Sample.

(** * Properties *)

(** ** [Number] and [String] on ids *)

Example Number_7 : Js.Number (JStr "7") = Int 7.
Proof. reflexivity. Qed.

Example Number_padded : Js.Number (JStr "  -12 ") = Int (-12).
Proof. reflexivity. Qed.

Example Number_empty : Js.Number (JStr EmptyString) = Int 0.
Proof. reflexivity. Qed.

Example Number_word : Js.Number (JStr "abc") = NaN.
Proof. reflexivity. Qed.

Example ToString_999999 : Js.ToString 999999 = "999999".
Proof. reflexivity. Qed.

Lemma trim_start_no_space s : Js.no_space s = true → Js.trim_start s = s.
Proof.
  destruct s as [|c s]; [done|]. simpl.
  intros [Hc _]%andb_true_iff. by destruct (Ascii.is_space c).
Qed.

Lemma trim_end_no_space s : Js.no_space s = true → Js.trim_end s = s.
Proof.
  induction s as [|c s IH]; [done|]. simpl.
  intros [Hc Hs]%andb_true_iff. rewrite IH by done.
  destruct s; [|done]. by destruct (Ascii.is_space c).
Qed.

Lemma trim_no_space s : Js.no_space s = true → Js.trim s = s.
Proof.
  intros H. unfold Js.trim. rewrite trim_start_no_space by done.
  by apply trim_end_no_space.
Qed.

Lemma all_digits_no_space s : Js.all_digits s = true → Js.no_space s = true.
Proof.
  induction s as [|c s IH]; [done|]. simpl.
  intros [Hc Hs]%andb_true_iff. rewrite IH by done.
  apply bool_decide_eq_true in Hc as [n Hn].
  destruct c as [[] [] [] [] [] [] [] []]; done.
Qed.

Lemma all_digits_string_of_uint d :
  Js.all_digits (NilEmpty.string_of_uint d) = true.
Proof. induction d; simpl; auto. Qed.

Lemma all_digits_NilZero d : Js.all_digits (NilZero.string_of_uint d) = true.
Proof. destruct d; try apply all_digits_string_of_uint. done. Qed.

(** A numeral of digits is read back as the number it writes. *)
Lemma StringToNumber_digits d :
  d ≠ Decimal.Nil →
  Js.StringToNumber (NilZero.string_of_uint d) = Int (Z.of_uint d).
Proof.
  intros Hd. unfold Js.StringToNumber.
  pose proof (all_digits_NilZero d) as Hdig.
  rewrite trim_no_space by by apply all_digits_no_space.
  pose proof (NilZero.usu d Hd) as Husu.
  destruct (NilZero.string_of_uint d) as [|c t] eqn:Hs; [done|].
  simpl in Hdig. apply andb_true_iff in Hdig as [Hc _].
  apply bool_decide_eq_true in Hc as [n Hn].
  assert (Ascii.eqb c "-" = false) as ->.
  { apply Ascii.eqb_neq. by intros ->. }
  assert (Ascii.eqb c "+" = false) as ->.
  { apply Ascii.eqb_neq. by intros ->. }
  by rewrite Husu.
Qed.

Lemma to_uint_nonnil p : Pos.to_uint p ≠ Decimal.Nil.
Proof.
  intros H. pose proof (DecimalPos.Unsigned.of_to p) as Hp.
  rewrite H in Hp. discriminate.
Qed.

Lemma Number_ToString z : Js.Number (JStr (Js.ToString z)) = Int z.
Proof.
  unfold Js.Number, Js.ToString.
  destruct z as [|p|p]; [done| |].
  - simpl. rewrite StringToNumber_digits by apply to_uint_nonnil.
    f_equal. apply (DecimalZ.of_to (Z.pos p)).
  - simpl. unfold Js.StringToNumber.
    pose proof (all_digits_NilZero (Pos.to_uint p)) as Hdig.
    rewrite trim_no_space.
    + rewrite Ascii.eqb_refl.
      rewrite NilZero.usu by apply to_uint_nonnil. simpl.
      f_equal. apply (DecimalZ.of_to (Z.neg p)).
    + simpl. by apply all_digits_no_space.
Qed.

(** ** The store primitives in closed form *)

Ltac run_M :=
  unfold mbind, M_bind, mret, M_ret, mthrow, M_throw, gets, modify, as_int;
  simpl.

Lemma matches_pair p u path r :
  Rel.matches p (Some u) path r = true ↔
  Rel.parent_id r = p ∧ Rel.user_id r = Some u ∧ Rel.path r = path.
Proof.
  unfold Rel.matches.
  rewrite !andb_true_iff, !bool_decide_eq_true. tauto.
Qed.

Lemma matches_parent p path r :
  Rel.matches p None path r = true ↔ Rel.parent_id r = p ∧ Rel.path r = path.
Proof.
  unfold Rel.matches.
  rewrite !andb_true_iff, !bool_decide_eq_true. tauto.
Qed.

Lemma M_bind_inr {A B : Type} (m : M A) (f : A → M B) db a db' :
  m db = (inr a, db') → (m ≫= f) db = f a db'.
Proof. unfold mbind, M_bind. by intros ->. Qed.

Lemma M_bind_inl {A B : Type} (m : M A) (f : A → M B) db e db' :
  m db = (inl e, db') → (m ≫= f) db = (inl e, db').
Proof. unfold mbind, M_bind. by intros ->. Qed.

Lemma findUnique_closed p db :
  Prisma.posts_findUnique (Int p) db = (inr (lookup_post p db), db).
Proof. reflexivity. Qed.

Lemma findFirst_closed p u path db :
  Prisma.posts_rels_findFirst (Int p) (Int u) path db =
    (inr (find (Rel.matches p (Some u) path) (posts_rels db)), db).
Proof. reflexivity. Qed.

Lemma count_closed p path db :
  Prisma.posts_rels_count (Int p) path db = (inr (edge_count path db p), db).
Proof.
  unfold Prisma.posts_rels_count, edge_count. run_M.
  do 3 f_equal. apply list_filter_iff. intros r. apply matches_parent.
Qed.

Lemma find_pair_Some p u path rows e :
  find (Rel.matches p (Some u) path) rows = Some e →
  e ∈ rows ∧ Rel.parent_id e = p ∧ Rel.user_id e = Some u ∧ Rel.path e = path.
Proof.
  intros H. apply find_some in H as [Hin Hm].
  split; [by apply list_elem_of_In | by apply matches_pair].
Qed.

Lemma find_pair_None p u path rows :
  find (Rel.matches p (Some u) path) rows = None ↔
  filter (λ r, Rel.parent_id r = p ∧ Rel.user_id r = Some u ∧ Rel.path r = path) rows = [].
Proof.
  induction rows as [|r rows IH]; simpl; [done|].
  rewrite filter_cons.
  destruct (Rel.matches p (Some u) path r) eqn:Hm.
  - apply matches_pair in Hm. rewrite decide_True by done. split; discriminate.
  - rewrite decide_False; [done|].
    intros H. apply matches_pair in H. congruence.
Qed.

Lemma delete_present id rows :
  (∃ e, e ∈ rows ∧ Rel.id e = id) →
  existsb (λ r, bool_decide (Rel.id r = id)) rows = true.
Proof.
  intros (e & Hin & He). apply existsb_exists. exists e.
  split; [by apply list_elem_of_In | by apply bool_decide_eq_true].
Qed.

Lemma delete_closed id db :
  (∃ e, e ∈ posts_rels db ∧ Rel.id e = id) →
  Prisma.posts_rels_delete id db = (inr (), deleted id db).
Proof.
  intros H. unfold Prisma.posts_rels_delete. run_M.
  by rewrite delete_present.
Qed.

Lemma create_closed p u path db :
  Prisma.posts_rels_create (Int p) (Int u) path db =
    (inr (Rel.mk (posts_rels_seq db) p (Some u) None path), created path p u db).
Proof. reflexivity. Qed.

Lemma likePost_closed postId userId p u db :
  Js.Number postId = Int p → Js.Number userId = Int u →
  likePost postId userId db =
    match lookup_post p db with
    | None => (inl (Error "Post not found"), db)
    | Some _ =>
        match find (Rel.matches p (Some u) "likedBy") (posts_rels db) with
        | Some e =>
            (inr {| liked := false;
                    likeCount := like_count (deleted (Rel.id e) db) p;
                    message := "Post unliked successfully" |},
             deleted (Rel.id e) db)
        | None =>
            (inr {| liked := true;
                    likeCount := like_count (created "likedBy" p u db) p;
                    message := "Post liked successfully" |},
             created "likedBy" p u db)
        end
    end.
Proof.
  intros Hp Hu. unfold likePost. rewrite Hp, Hu.
  erewrite M_bind_inr by apply findUnique_closed.
  destruct (lookup_post p db) as [post|]; [|done].
  erewrite M_bind_inr by apply findFirst_closed.
  destruct (find _ _) as [e|] eqn:Hfind.
  - apply find_pair_Some in Hfind as (Hin & _).
    erewrite M_bind_inr by (apply delete_closed; eauto).
    by erewrite M_bind_inr by apply count_closed.
  - erewrite M_bind_inr by apply create_closed.
    by erewrite M_bind_inr by apply count_closed.
Qed.

Lemma dislike_closed p u db :
  Ledger.dislike p u db =
    match find (Rel.matches p (Some u) "dislikedBy") (posts_rels db) with
    | Some e =>
        (inr (false, edge_count "dislikedBy" (deleted (Rel.id e) db) p),
         deleted (Rel.id e) db)
    | None =>
        (inr (true, edge_count "dislikedBy" (created "dislikedBy" p u db) p),
         created "dislikedBy" p u db)
    end.
Proof.
  unfold Ledger.dislike.
  erewrite M_bind_inr by apply findFirst_closed.
  destruct (find _ _) as [e|] eqn:Hfind.
  - apply find_pair_Some in Hfind as (Hin & _).
    erewrite M_bind_inr by (apply delete_closed; eauto).
    by erewrite M_bind_inr by apply count_closed.
  - erewrite M_bind_inr by apply create_closed.
    by erewrite M_bind_inr by apply count_closed.
Qed.

(** The store after [unlike]: no Like edge of (p, u) is left. *)
Lemma unlike_closed p u db :
  Ledger.unlike p u db =
    let db' := set_posts_rels
                 (filter (λ r, ¬ (Rel.parent_id r = p ∧ Rel.user_id r = Some u ∧
                                  Rel.path r = "likedBy")) (posts_rels db))
                 (posts_rels_seq db) db in
    (inr (like_count db' p), db').
Proof.
  unfold Ledger.unlike, Ledger.deleteMany.
  erewrite M_bind_inr; [|reflexivity].
  rewrite count_closed. simpl. unfold like_count, edge_count. simpl.
  assert (Hf : filter (λ r, Rel.matches p (Some u) "likedBy" r ≠ true) (posts_rels db) =
               filter (λ r, ¬ (Rel.parent_id r = p ∧ Rel.user_id r = Some u ∧
                               Rel.path r = "likedBy")) (posts_rels db)).
  { apply list_filter_iff. intros r. by rewrite matches_pair. }
  unfold set_posts_rels. by rewrite Hf.
Qed.

(** A failed [likePost] and every query leave the store as it was. *)
Lemma likePost_cases postId userId db :
  (likePost postId userId db).2 = db ∨
  ∃ p u, Js.Number postId = Int p ∧ Js.Number userId = Int u.
Proof.
  unfold likePost.
  destruct (Js.Number postId) as [p| |]; [|by left..].
  erewrite M_bind_inr by apply findUnique_closed.
  destruct (lookup_post p db); [|by left].
  destruct (Js.Number userId) as [u| |]; [|by left..].
  right. eauto.
Qed.

Lemma isPostLikedByUser_state postId userId db :
  (isPostLikedByUser postId userId db).2 = db.
Proof.
  unfold isPostLikedByUser.
  destruct (Js.Number postId) as [p| |]; [|done..].
  destruct (Js.Number userId) as [u| |]; [|done..].
  by erewrite M_bind_inr by apply findFirst_closed.
Qed.

Lemma getLikesByPostId_state postId db :
  (getLikesByPostId postId db).2 = db.
Proof.
  unfold getLikesByPostId.
  by destruct (Js.Number postId) as [p| |].
Qed.

Lemma getPostById_state id db : (getPostById id db).2 = db.
Proof.
  unfold getPostById.
  destruct (Js.Number id) as [p| |]; [|done..].
  erewrite M_bind_inr by apply findUnique_closed.
  by destruct (lookup_post p db).
Qed.

(** ** The invariants under row deletion and row creation *)

Section rows.
Context (Q : Rel.t → Prop) `{!∀ r, Decision (Q r)}.

Lemma edges_filter path p u seq db :
  edges path p u (set_posts_rels (filter Q (posts_rels db)) seq db) =
  filter Q (edges path p u db).
Proof.
  unfold edges; simpl. rewrite !list_filter_filter.
  apply list_filter_iff. intros r. tauto.
Qed.

Lemma at_most_one_filter seq db :
  at_most_one db →
  at_most_one (set_posts_rels (filter Q (posts_rels db)) seq db).
Proof.
  intros Hone p u. destruct (Hone p u) as [Hl Hd].
  rewrite !edges_filter.
  split; (etrans; [apply length_filter | done]).
Qed.

Lemma wf_rels_filter db :
  wf_rels db →
  wf_rels (set_posts_rels (filter Q (posts_rels db)) (posts_rels_seq db) db).
Proof.
  intros [Hnd Hlt]. split; simpl.
  - eapply sublist_NoDup; [exact Hnd|].
    apply fmap_sublist, sublist_filter.
  - intros r [_ Hin]%list_elem_of_filter. by apply Hlt.
Qed.
End rows.

Lemma edges_created path path' p u p' u' db :
  edges path p u (created path' p' u' db) =
  edges path p u db ++
    (if decide (p' = p ∧ Some u' = Some u ∧ path' = path)
     then [Rel.mk (posts_rels_seq db) p' (Some u') None path'] else []).
Proof.
  unfold edges, created; simpl. rewrite filter_app. f_equal.
Qed.

Lemma at_most_one_created path p u db :
  at_most_one db →
  find (Rel.matches p (Some u) path) (posts_rels db) = None →
  at_most_one (created path p u db).
Proof.
  intros H Hnone q v. destruct (H q v) as [Hl Hd].
  apply find_pair_None in Hnone.
  rewrite !edges_created.
  split; case_decide as Heq; rewrite ?app_nil_r; try done.
  - destruct Heq as (-> & [= ->] & ->). unfold edges. by rewrite Hnone.
  - destruct Heq as (-> & [= ->] & ->). unfold edges. by rewrite Hnone.
Qed.

Lemma wf_rels_created path p u db : wf_rels db → wf_rels (created path p u db).
Proof.
  intros [Hnd Hlt]. split; simpl.
  - rewrite fmap_app. apply NoDup_app. split; [done|]. split.
    + intros i (r & Hi & Hin)%list_elem_of_fmap [Hs|[]%elem_of_nil]%elem_of_cons.
      apply Hlt in Hin. simpl in Hs. lia.
    + apply NoDup_singleton.
  - intros r [Hin|[->|[]%elem_of_nil]%elem_of_cons]%elem_of_app.
    + apply Hlt in Hin. lia.
    + simpl. lia.
Qed.

Lemma filter_none {A} (P : A → Prop) `{!∀ x, Decision (P x)} (l : list A) :
  (∀ x, x ∈ l → ¬ P x) → filter P l = [].
Proof.
  induction l as [|x l IH]; intros Hno; [done|].
  rewrite filter_cons_False by (apply Hno; left).
  apply IH. intros y Hy. apply Hno. by right.
Qed.

Lemma initial_inv db : initial db → ledger_inv db.
Proof.
  intros [Hwf Hno]. split; [done|]. intros p u.
  unfold edges.
  split; (rewrite filter_none; [simpl; lia|]);
    intros r Hin (_ & _ & Hpath); by destruct (Hno r Hin).
Qed.

Lemma exec_inv o db : ledger_inv db → ledger_inv (exec o db).
Proof.
  intros [Hwf Hone]. destruct o as [postId userId|postId userId|postId|id|p u|p u]; cbn [exec].
  - destruct (likePost_cases postId userId db) as [->|(p & u & Hp & Hu)]; [done|].
    rewrite (likePost_closed _ _ p u) by done.
    destruct (lookup_post p db); [|done].
    destruct (find _ _) eqn:Hfind; simpl.
    + split; [by apply wf_rels_filter | by apply at_most_one_filter].
    + split; [by apply wf_rels_created | by apply at_most_one_created].
  - by rewrite isPostLikedByUser_state.
  - by rewrite getLikesByPostId_state.
  - by rewrite getPostById_state.
  - rewrite dislike_closed.
    destruct (find _ _) eqn:Hfind; simpl.
    + split; [by apply wf_rels_filter | by apply at_most_one_filter].
    + split; [by apply wf_rels_created | by apply at_most_one_created].
  - rewrite unlike_closed. simpl.
    split; [by apply wf_rels_filter | by apply at_most_one_filter].
Qed.

Lemma run_inv ops db : ledger_inv db → ledger_inv (run ops db).
Proof.
  revert db. induction ops as [|o ops IH]; intros db H; [done|].
  simpl. by apply IH, exec_inv.
Qed.

(** ** Like edges of a pair *)

Lemma has_like_find db p u :
  has_like db p u ↔ is_Some (find (Rel.matches p (Some u) "likedBy") (posts_rels db)).
Proof.
  split.
  - intros (r & Hin & Hr).
    destruct (find _ _) eqn:Hfind; [done|].
    apply find_pair_None in Hfind.
    exfalso. eapply filter_nil_not_elem_of; [exact Hfind| |exact Hin]. done.
  - intros [e He]. apply find_pair_Some in He as (Hin & Hr). by exists e.
Qed.

Lemma has_like_created path p' u' db p u :
  has_like (created path p' u' db) p u ↔
  has_like db p u ∨ (p' = p ∧ u' = u ∧ path = "likedBy").
Proof.
  unfold has_like, created; simpl. split.
  - intros (r & [Hin|[->|[]%elem_of_nil]%elem_of_cons]%elem_of_app & Hp & Hu & Hpath).
    + left. by exists r.
    + right. simpl in *. by simplify_eq.
  - intros [(r & Hin & Hr)|(-> & -> & ->)].
    + exists r. split; [|done]. apply elem_of_app. by left.
    + eexists. split; [apply elem_of_app; right; by left|done].
Qed.

Lemma key_unique (rows : list Rel.t) e r :
  NoDup (Rel.id <$> rows) → e ∈ rows → r ∈ rows → Rel.id r = Rel.id e → r = e.
Proof.
  induction rows as [|x rows IH]; [by intros _ []%elem_of_nil|].
  rewrite fmap_cons, NoDup_cons.
  intros [Hx Hnd] [->|He]%elem_of_cons [->|Hr]%elem_of_cons Hid; auto.
  - destruct Hx. rewrite <- Hid. by apply list_elem_of_fmap_2.
  - destruct Hx. rewrite Hid. by apply list_elem_of_fmap_2.
Qed.

(** With unique keys, deleting by key removes that row and no other. *)
Lemma elem_of_deleted db e r :
  wf_rels db → e ∈ posts_rels db →
  r ∈ posts_rels (deleted (Rel.id e) db) ↔ r ∈ posts_rels db ∧ r ≠ e.
Proof.
  intros [Hnd _] He. unfold deleted; simpl. rewrite list_elem_of_filter.
  split.
  - intros [Hid Hin]. split; [done|]. by intros ->.
  - intros [Hin Hne]. split; [|done]. intros Hid. apply Hne.
    by eapply key_unique.
Qed.

Lemma has_like_deleted_other db e p u :
  wf_rels db → e ∈ posts_rels db →
  ¬ (Rel.parent_id e = p ∧ Rel.user_id e = Some u ∧ Rel.path e = "likedBy") →
  has_like (deleted (Rel.id e) db) p u ↔ has_like db p u.
Proof.
  intros Hwf He Hne. unfold has_like. split.
  - intros (r & Hin & Hr). apply elem_of_deleted in Hin as [Hin _]; eauto.
  - intros (r & Hin & Hr). exists r. split; [|done].
    apply elem_of_deleted; [done..|]. split; [done|]. by intros ->.
Qed.

(** Under the at-most-one rule, deleting the pair's edge leaves none. *)
Lemma has_like_deleted_own db e p u :
  at_most_one db → e ∈ posts_rels db →
  Rel.parent_id e = p ∧ Rel.user_id e = Some u ∧ Rel.path e = "likedBy" →
  ¬ has_like (deleted (Rel.id e) db) p u.
Proof.
  intros Hone He Hown (r & Hin & Hr).
  unfold deleted in Hin; simpl in Hin.
  apply list_elem_of_filter in Hin as [Hid Hin].
  destruct (Hone p u) as [Hl _]. unfold edges in Hl.
  assert (He' : e ∈ filter (λ r, Rel.parent_id r = p ∧ Rel.user_id r = Some u ∧
                                Rel.path r = "likedBy") (posts_rels db))
    by by apply list_elem_of_filter.
  assert (Hr' : r ∈ filter (λ r, Rel.parent_id r = p ∧ Rel.user_id r = Some u ∧
                                Rel.path r = "likedBy") (posts_rels db))
    by by apply list_elem_of_filter.
  destruct (filter _ _) as [|x [|y l]]; simpl in Hl; [| |lia].
  - by apply elem_of_nil in He'.
  - apply list_elem_of_singleton in He', Hr'. by subst.
Qed.

Lemma has_like_unliked db p u q v seq :
  has_like (set_posts_rels
              (filter (λ r, ¬ (Rel.parent_id r = q ∧ Rel.user_id r = Some v ∧
                               Rel.path r = "likedBy")) (posts_rels db)) seq db) p u ↔
  has_like db p u ∧ ¬ (q = p ∧ v = u).
Proof.
  unfold has_like; simpl. split.
  - intros (r & [Hn Hin]%list_elem_of_filter & Hp & Hu & Hpath). split; [by exists r|].
    intros [-> ->]. by apply Hn.
  - intros [(r & Hin & Hp & Hu & Hpath) Hne]. exists r. split; [|done].
    apply list_elem_of_filter. split; [|done].
    intros (Hq & Hv & _). apply Hne. split; congruence.
Qed.

(** ** Counting edges *)

Lemma edge_count_created path path' p u q db :
  edge_count path (created path' p u db) q =
  (edge_count path db q + (if decide (p = q ∧ path' = path) then 1 else 0))%nat.
Proof.
  unfold edge_count, created; simpl.
  rewrite filter_app, length_app, filter_cons, filter_nil; simpl.
  by repeat case_decide.
Qed.

Lemma length_filter_delete (P : Rel.t → Prop) `{!∀ r, Decision (P r)} rows e :
  NoDup (Rel.id <$> rows) → e ∈ rows →
  (length (filter P (filter (λ r, Rel.id r ≠ Rel.id e) rows))
   + (if decide (P e) then 1 else 0))%nat = length (filter P rows).
Proof.
  induction rows as [|x rows IH]; [by intros _ []%elem_of_nil|].
  rewrite fmap_cons, NoDup_cons. intros [Hx Hnd] He.
  rewrite !filter_cons.
  destruct (decide (x = e)) as [->|Hne].
  - rewrite decide_False by (intros Hid; by apply Hid).
    assert (Hall : filter (λ r, Rel.id r ≠ Rel.id e) rows = rows).
    { clear IH He Hnd. induction rows as [|y rows IH]; [done|].
      rewrite filter_cons_True.
      - f_equal. apply IH. intros Hin. apply Hx. rewrite fmap_cons. by right.
      - intros Hid. apply Hx. rewrite fmap_cons, Hid. by left. }
    rewrite Hall. case_decide; simpl; lia.
  - apply elem_of_cons in He as [->|He]; [done|].
    rewrite decide_True.
    + rewrite filter_cons. specialize (IH Hnd He).
      destruct (decide (P x)); simpl; lia.
    + intros Hid. apply Hx. rewrite Hid. by apply list_elem_of_fmap_2.
Qed.

Lemma like_count_deleted db e p :
  wf_rels db → e ∈ posts_rels db →
  Rel.parent_id e = p → Rel.path e = "likedBy" →
  S (like_count (deleted (Rel.id e) db) p) = like_count db p.
Proof.
  intros [Hnd _] He Hp Hpath. unfold like_count, edge_count, deleted; simpl.
  rewrite <- (length_filter_delete _ (posts_rels db) e) by done.
  rewrite decide_True by done. lia.
Qed.

(** With the sequence ahead of every key, deleting the row just created
    gives back the rows there were. *)
Lemma deleted_created path p u db :
  wf_rels db →
  posts_rels (deleted (posts_rels_seq db) (created path p u db)) = posts_rels db.
Proof.
  intros [_ Hlt]. unfold deleted, created; simpl.
  rewrite filter_app, filter_cons_False, filter_nil, app_nil_r.
  - induction (posts_rels db) as [|x rows IH]; [done|].
    rewrite filter_cons_True.
    + f_equal. apply IH. intros r Hr. apply Hlt. by right.
    + assert (Rel.id x < posts_rels_seq db) by (apply Hlt; by left). lia.
  - simpl. by intros Hne.
Qed.

Lemma find_created path p u db :
  find (Rel.matches p (Some u) path) (posts_rels db) = None →
  find (Rel.matches p (Some u) path) (posts_rels (created path p u db)) =
    Some (Rel.mk (posts_rels_seq db) p (Some u) None path).
Proof.
  intros Hnone. unfold created; simpl.
  induction (posts_rels db) as [|x rows IH]; simpl in *.
  - assert (Rel.matches p (Some u) path
              (Rel.mk (posts_rels_seq db) p (Some u) None path) = true) as ->; [|done].
    by apply matches_pair.
  - destruct (Rel.matches p (Some u) path x); [done|]. by apply IH.
Qed.

(** ** The like toggle *)

Lemma initial_db0 : initial Scenario.db0.
Proof.
  split; [split|]; simpl.
  - constructor.
  - by intros r []%elem_of_nil.
  - by intros r []%elem_of_nil.
Qed.

(** C1. For a post that exists and any user id, [likePost] looks up the
    pair's Like edge: when there is one it deletes that edge and answers
    [liked = false] with the count of the new state; when there is none it
    creates the edge and answers [liked = true] with the count of the new
    state. *)
Theorem likePost_toggles db postId userId p u post :
  Js.Number postId = Int p → Js.Number userId = Int u →
  lookup_post p db = Some post →
  (has_like db p u ∧
   ∃ e, e ∈ posts_rels db ∧
        Rel.parent_id e = p ∧ Rel.user_id e = Some u ∧ Rel.path e = "likedBy" ∧
        (e ∉ posts_rels (deleted (Rel.id e) db)) ∧
        likePost postId userId db =
          (inr {| liked := false;
                  likeCount := like_count (deleted (Rel.id e) db) p;
                  message := "Post unliked successfully" |},
           deleted (Rel.id e) db))
  ∨
  (¬ has_like db p u ∧
   has_like (created "likedBy" p u db) p u ∧
   likePost postId userId db =
     (inr {| liked := true;
             likeCount := like_count (created "likedBy" p u db) p;
             message := "Post liked successfully" |},
      created "likedBy" p u db)).
Proof.
  intros Hp Hu Hpost.
  rewrite (likePost_closed _ _ p u) by done. rewrite Hpost.
  destruct (find _ _) as [e|] eqn:Hfind.
  - left. split; [apply has_like_find; by rewrite Hfind|].
    apply find_pair_Some in Hfind as (Hin & He).
    exists e. repeat split; try apply He; try done.
    unfold deleted; simpl. rewrite list_elem_of_filter. by intros [Hne _].
  - right. split; [rewrite has_like_find, Hfind; by intros [? ?]|].
    split; [|done]. apply has_like_created. by right.
Qed.

Lemma likePost_toggles_witness :
  ¬ has_like Scenario.db0 7 1 ∧
  likePost (JStr "7") (Scenario.n 1) Scenario.db0 =
    (inr {| liked := true; likeCount := 1; message := "Post liked successfully" |},
     created "likedBy" 7 1 Scenario.db0).
Proof.
  destruct (likePost_toggles Scenario.db0 (JStr "7") (Scenario.n 1) 7 1 Scenario.post7)
    as [[(r & Hin & _) _]|(Hno & _ & Heq)]; [reflexivity..| |].
  - by apply elem_of_nil in Hin.
  - split; [exact Hno | exact Heq].
Defined.

Lemma isPostLikedByUser_closed postId userId p u db :
  Js.Number postId = Int p → Js.Number userId = Int u →
  isPostLikedByUser postId userId db =
    (inr (bool_decide
            (is_Some (find (Rel.matches p (Some u) "likedBy") (posts_rels db)))), db).
Proof.
  intros Hp Hu. unfold isPostLikedByUser. rewrite Hp, Hu.
  by erewrite M_bind_inr by apply findFirst_closed.
Qed.

Lemma lookup_post_id p db post :
  lookup_post p db = Some post → Post.id post = p.
Proof.
  intros [_ H]%find_some. by apply bool_decide_eq_true in H.
Qed.

Lemma getPostById_likeCount id p db v db' :
  Js.Number id = Int p →
  getPostById id db = (inr (Some v), db') →
  db' = db ∧ pv_likeCount v = like_count db p.
Proof.
  intros Hid. unfold getPostById. rewrite Hid.
  erewrite M_bind_inr by apply findUnique_closed.
  destruct (lookup_post p db) as [post|] eqn:Hpost; [|done].
  apply lookup_post_id in Hpost.
  intros [= <- <-]. split; [done|]. simpl.
  unfold Prisma.include_posts_rels, like_count, edge_count.
  rewrite list_filter_filter, Hpost.
  f_equal. apply list_filter_iff. intros r. tauto.
Qed.

(** C4. The count an operation reports is the number of Like edges the
    table holds for the target at that moment: [likePost] reports the
    count of the state it leaves, [getPostById] the count of the state it
    reads; nothing but the rows themselves is consulted. *)
Theorem count_is_live postId userId db :
  (∀ r db', likePost postId userId db = (inr r, db') →
     ∃ p, Js.Number postId = Int p ∧ likeCount r = like_count db' p) ∧
  (∀ v db', getPostById postId db = (inr (Some v), db') →
     ∃ p, Js.Number postId = Int p ∧ db' = db ∧ pv_likeCount v = like_count db p).
Proof.
  split.
  - intros r db' Hlike.
    destruct (Js.Number postId) as [p| |] eqn:Hp;
      [|unfold likePost in Hlike; rewrite Hp in Hlike; discriminate Hlike..].
    destruct (Js.Number userId) as [u| |] eqn:Hu.
    + exists p. split; [done|].
      rewrite (likePost_closed _ _ p u) in Hlike by done.
      destruct (lookup_post p db); [|discriminate Hlike].
      destruct (find _ _); by injection Hlike as <- <-.
    + unfold likePost in Hlike. rewrite Hp, Hu in Hlike.
      erewrite M_bind_inr in Hlike by apply findUnique_closed.
      destruct (lookup_post p db); discriminate Hlike.
    + unfold likePost in Hlike. rewrite Hp, Hu in Hlike.
      erewrite M_bind_inr in Hlike by apply findUnique_closed.
      destruct (lookup_post p db); discriminate Hlike.
  - intros v db' Hget.
    destruct (Js.Number postId) as [p| |] eqn:Hp;
      [|unfold getPostById in Hget; rewrite Hp in Hget; discriminate Hget..].
    exists p. split; [done|]. by eapply getPostById_likeCount.
Qed.

Lemma count_is_live_witness :
  (∃ p, Js.Number (Scenario.n 7) = Int p ∧
        (1%nat = like_count (created "likedBy" 7 1 Scenario.db0) p)) ∧
  (∃ p, Js.Number (Scenario.n 7) = Int p ∧
        (0%nat = like_count Scenario.db0 p)).
Proof.
  destruct (count_is_live (Scenario.n 7) (Scenario.n 1) Scenario.db0) as [Hlike Hget].
  split.
  - apply (Hlike {| liked := true; likeCount := 1;
                    message := "Post liked successfully" |}
                 (created "likedBy" 7 1 Scenario.db0)).
    reflexivity.
  - destruct (Hget {| pv_post := Scenario.post7; pv_posts_rels := [];
                      pv_user := Some (summarize Scenario.user1);
                      pv_likeCount := 0; pv_tags := [] |} Scenario.db0)
      as (p & Hp & _ & Hc); [reflexivity|].
    exists p. split; [exact Hp|exact Hc].
Defined.

(** C6. For a post id that names no post, [likePost] throws
    [Error('Post not found')] whatever the user id is, and the store is
    as before; the [/like] route, when it calls the service, answers 404. *)
Theorem likePost_not_found db postId userId p :
  Js.Number postId = Int p →
  lookup_post p db = None →
  likePost postId userId db = (inl (Error "Post not found"), db) ∧
  ∀ req, prop (body req) "postId" = postId → prop (body req) "userId" = userId →
         Js.truthy postId = true → Js.truthy userId = true →
         PostRouter.like req db = (Respond 404 (ErrorBody "Post not found"), db).
Proof.
  intros Hp Hpost.
  assert (Hlike : likePost postId userId db = (inl (Error "Post not found"), db)).
  { unfold likePost. rewrite Hp.
    erewrite M_bind_inr by apply findUnique_closed. by rewrite Hpost. }
  split; [done|].
  intros req Hb1 Hb2 Ht1 Ht2. unfold PostRouter.like.
  rewrite Hb1, Hb2, Ht1, Ht2. simpl. unfold try_catch. by rewrite Hlike.
Qed.

Lemma likePost_not_found_witness :
  likePost (Scenario.n 999999) (Scenario.n 1) Scenario.db0 =
    (inl (Error "Post not found"), Scenario.db0) ∧
  PostRouter.like
    (mk_request {[ "postId" := Scenario.n 999999; "userId" := Scenario.n 1 ]} ∅ ∅)
    Scenario.db0 = (Respond 404 (ErrorBody "Post not found"), Scenario.db0).
Proof.
  destruct (likePost_not_found Scenario.db0 (Scenario.n 999999) (Scenario.n 1) 999999)
    as [Hlike Hroute]; [reflexivity..|].
  split; [exact Hlike|].
  apply Hroute; reflexivity.
Defined.

(** C10. [likePost] and [isPostLikedByUser] pass both ids through
    [Number] before anything else, so the decimal string of an id and the
    id itself give the same result and the same store. *)
Theorem ids_coerced_by_Number p u db :
  let sp := JStr (Js.ToString p) in
  let su := JStr (Js.ToString u) in
  let np := JNum (Int p) in
  let nu := JNum (Int u) in
  likePost sp su db = likePost np nu db ∧
  likePost sp nu db = likePost np nu db ∧
  likePost np su db = likePost np nu db ∧
  isPostLikedByUser sp su db = isPostLikedByUser np nu db ∧
  isPostLikedByUser sp nu db = isPostLikedByUser np nu db ∧
  isPostLikedByUser np su db = isPostLikedByUser np nu db.
Proof.
  intros sp su np nu.
  assert (Hp : Js.Number sp = Int p) by apply Number_ToString.
  assert (Hu : Js.Number su = Int u) by apply Number_ToString.
  unfold likePost, isPostLikedByUser. rewrite Hp, Hu. done.
Qed.

Lemma exec_at_most_one o db : at_most_one db → at_most_one (exec o db).
Proof.
  intros Hone. destruct o as [postId userId|postId userId|postId|id|p u|p u]; cbn [exec].
  - destruct (likePost_cases postId userId db) as [->|(p & u & Hp & Hu)]; [done|].
    rewrite (likePost_closed _ _ p u) by done.
    destruct (lookup_post p db); [|done].
    destruct (find _ _) eqn:Hfind; simpl.
    + by apply at_most_one_filter.
    + by apply at_most_one_created.
  - by rewrite isPostLikedByUser_state.
  - by rewrite getLikesByPostId_state.
  - by rewrite getPostById_state.
  - rewrite dislike_closed.
    destruct (find _ _) eqn:Hfind; simpl.
    + by apply at_most_one_filter.
    + by apply at_most_one_created.
  - rewrite unlike_closed. simpl. by apply at_most_one_filter.
Qed.

Lemma run_snoc ops o db : run (ops ++ [o]) db = exec o (run ops db).
Proof. revert db. induction ops as [|o' ops IH]; intros db; [done|]. apply IH. Qed.

(** C2. In every state the ledger can reach, a (parent, user) pair has at
    most one Like edge and at most one Dislike edge; every operation (like,
    dislike, unlike, the queries) keeps it so, from a reachable state and
    from any state that has the property. *)
Theorem at_most_one_edge db o :
  reachable db →
  at_most_one db ∧
  at_most_one (exec o db) ∧
  reachable (exec o db) ∧
  (∀ db', at_most_one db' → at_most_one (exec o db')).
Proof.
  intros (db0 & ops & Hinit & ->).
  assert (Hinv : ledger_inv (run ops db0)) by by apply run_inv, initial_inv.
  destruct Hinv as [_ Hone].
  split; [done|]. split; [by apply exec_at_most_one|]. split.
  - exists db0, (ops ++ [o]). split; [done|]. by rewrite run_snoc.
  - intros db'. apply exec_at_most_one.
Qed.

Lemma at_most_one_edge_witness :
  let db := run [OpLikePost (Scenario.n 7) (Scenario.n 1);
                 OpDislike 7 1;
                 OpLikePost (JStr "7") (Scenario.n 2)] Scenario.db0 in
  reachable db ∧ at_most_one db ∧ at_most_one (exec (OpLikePost (Scenario.n 7) (JStr "2")) db).
Proof.
  intros db.
  assert (Hreach : reachable db).
  { exists Scenario.db0, [OpLikePost (Scenario.n 7) (Scenario.n 1);
                          OpDislike 7 1;
                          OpLikePost (JStr "7") (Scenario.n 2)].
    split; [|reflexivity].
    split; [split|]; simpl.
    - constructor.
    - intros r Hin. by apply elem_of_nil in Hin.
    - intros r Hin. by apply elem_of_nil in Hin. }
  destruct (at_most_one_edge db (OpLikePost (Scenario.n 7) (JStr "2")) Hreach)
    as (H1 & H2 & _).
  split; [exact Hreach|]. split; [exact H1|exact H2].
Defined.

(** One operation keeps the recorded effect and the pair's edge in step. *)
Lemma effect_has_like p u o db acc :
  ledger_inv db →
  (acc = Some true ↔ has_like db p u) →
  (effect p u o db acc = Some true ↔ has_like (exec o db) p u).
Proof.
  intros [Hwf Hone] Hacc.
  destruct o as [postId userId|postId userId|postId|id|q v|q v]; cbn [exec effect].
  - case_bool_decide as Hpair.
    + destruct Hpair as [Hp Hu].
      rewrite (likePost_closed _ _ p u) by done.
      destruct (lookup_post p db); [|done].
      destruct (find _ _) as [e|] eqn:Hfind; simpl.
      * apply find_pair_Some in Hfind as [Hin He].
        split; [done|]. intros Hlike.
        by destruct (has_like_deleted_own db e p u).
      * split; [intros _|done]. apply has_like_created. by right.
    + destruct (likePost_cases postId userId db) as [->|(q & v & Hq & Hv)]; [done|].
      rewrite (likePost_closed _ _ q v) by done.
      destruct (lookup_post q db); [|done].
      destruct (find _ _) as [e|] eqn:Hfind; simpl.
      * apply find_pair_Some in Hfind as (Hin & He1 & He2 & He3).
        rewrite has_like_deleted_other; [done..|].
        intros (? & ? & _). apply Hpair. split; congruence.
      * rewrite has_like_created, Hacc. split; [by left|].
        intros [?|(-> & -> & _)]; [done|]. by destruct Hpair.
  - by rewrite isPostLikedByUser_state.
  - by rewrite getLikesByPostId_state.
  - by rewrite getPostById_state.
  - rewrite dislike_closed.
    destruct (find _ _) as [e|] eqn:Hfind; simpl.
    + apply find_pair_Some in Hfind as (Hin & He1 & He2 & He3).
      rewrite has_like_deleted_other; [done..|].
      intros (_ & _ & Hpath). by rewrite He3 in Hpath.
    + rewrite has_like_created, Hacc. split; [by left|].
      by intros [?|(_ & _ & ?)].
  - rewrite unlike_closed. simpl. rewrite has_like_unliked.
    case_bool_decide as Hpair.
    + split; [done|]. by intros [_ ?].
    + rewrite Hacc. split; [by intros ?|by intros [? _]].
Qed.

Lemma last_effect_has_like p u ops db acc :
  ledger_inv db →
  (acc = Some true ↔ has_like db p u) →
  (last_effect p u ops db acc = Some true ↔ has_like (run ops db) p u).
Proof.
  revert db acc. induction ops as [|o ops IH]; intros db acc Hinv Hacc; [done|].
  simpl. apply IH; [by apply exec_inv|by apply effect_has_like].
Qed.

Lemma initial_no_like db p u : initial db → ¬ has_like db p u.
Proof. intros [_ Hno] (r & Hin & _ & _ & Hpath). by destruct (Hno r Hin). Qed.

(** C5. [isPostLikedByUser] answers [true] exactly when the pair has a
    Like edge, which is exactly when the last effect on the pair was a
    create: the last like of the pair created the edge and neither a
    toggle-off nor an unlike came after it. *)
Theorem isPostLikedByUser_iff db0 ops postId userId p u :
  initial db0 →
  Js.Number postId = Int p → Js.Number userId = Int u →
  ∃ b, isPostLikedByUser postId userId (run ops db0) = (inr b, run ops db0) ∧
       (b = true ↔ has_like (run ops db0) p u) ∧
       (b = true ↔ last_effect p u ops db0 None = Some true).
Proof.
  intros Hinit Hp Hu. eexists. split; [by apply isPostLikedByUser_closed|].
  rewrite bool_decide_eq_true, <- has_like_find. split; [done|].
  symmetry. apply last_effect_has_like; [by apply initial_inv|].
  split; [done|]. intros Hlike. by destruct (initial_no_like db0 p u).
Qed.

Lemma isPostLikedByUser_iff_witness :
  let ops := [OpLikePost (Scenario.n 7) (Scenario.n 1);
              OpLikePost (Scenario.n 7) (Scenario.n 2);
              OpLikePost (JStr "7") (JStr "1");
              OpUnlike 7 1;
              OpLikePost (Scenario.n 7) (Scenario.n 1)] in
  isPostLikedByUser (JStr "7") (Scenario.n 1) (run ops Scenario.db0) =
    (inr true, run ops Scenario.db0) ∧
  last_effect 7 1 ops Scenario.db0 None = Some true.
Proof.
  intros ops.
  assert (Hinit : initial Scenario.db0).
  { split; [split|]; simpl.
    - constructor.
    - intros r Hin. by apply elem_of_nil in Hin.
    - intros r Hin. by apply elem_of_nil in Hin. }
  destruct (isPostLikedByUser_iff Scenario.db0 ops (JStr "7") (Scenario.n 1) 7 1 Hinit)
    as (b & Heq & _ & Hlast); [reflexivity..|].
  assert (Hb : b = true).
  { apply Hlast. reflexivity. }
  rewrite Hb in Heq. split; [exact Heq|reflexivity].
Defined.

Lemma like_count_rows db1 db2 p :
  posts_rels db1 = posts_rels db2 → like_count db1 p = like_count db2 p.
Proof. unfold like_count, edge_count. by intros ->. Qed.

Lemma has_like_rows db1 db2 p u :
  posts_rels db1 = posts_rels db2 → has_like db1 p u ↔ has_like db2 p u.
Proof. unfold has_like. by intros ->. Qed.

Lemma no_likes db p u : like_count db p = 0%nat → ¬ has_like db p u.
Proof.
  unfold like_count, edge_count. intros Hlen (r & Hin & Hp & _ & Hpath).
  apply nil_length_inv in Hlen.
  eapply filter_nil_not_elem_of; [exact Hlen| |exact Hin]. done.
Qed.

Lemma not_has_like_find db p u :
  ¬ has_like db p u →
  find (Rel.matches p (Some u) "likedBy") (posts_rels db) = None.
Proof.
  rewrite has_like_find. destruct (find _ _); [|done].
  intros H. destruct H. eauto.
Qed.

(** C3. Two likes of the same pair in a row undo each other: the second
    call answers the opposite of the first ([liked = false] after
    [liked = true]), its count is the count before the first call, and the
    pair holds a Like edge afterwards exactly when it did before.  On a
    post 7 nobody liked yet: user 1 likes it, likes it again, user 2 likes
    it, with the answers and the lookups of the scenario. *)
Theorem like_twice db postId userId p u :
  wf_rels db → at_most_one db →
  Js.Number postId = Int p → Js.Number userId = Int u →
  is_Some (lookup_post p db) →
  (∃ r1 db1 r2 db2,
     likePost postId userId db = (inr r1, db1) ∧
     likePost postId userId db1 = (inr r2, db2) ∧
     liked r2 = negb (liked r1) ∧
     likeCount r2 = like_count db p ∧
     like_count db2 p = like_count db p ∧
     (has_like db2 p u ↔ has_like db p u)) ∧
  (is_Some (lookup_post 7 db) → like_count db 7 = 0%nat →
   ∃ db1 db2 db3,
     likePost (Scenario.n 7) (Scenario.n 1) db =
       (inr {| liked := true; likeCount := 1;
               message := "Post liked successfully" |}, db1) ∧
     likePost (Scenario.n 7) (Scenario.n 1) db1 =
       (inr {| liked := false; likeCount := 0;
               message := "Post unliked successfully" |}, db2) ∧
     likePost (Scenario.n 7) (Scenario.n 2) db2 =
       (inr {| liked := true; likeCount := 1;
               message := "Post liked successfully" |}, db3) ∧
     isPostLikedByUser (Scenario.n 7) (Scenario.n 1) db3 = (inr false, db3) ∧
     isPostLikedByUser (Scenario.n 7) (Scenario.n 2) db3 = (inr true, db3)).
Proof.
  intros Hwf Hone Hp Hu [post Hpost]. split.
  - rewrite (likePost_closed _ _ p u) by done. rewrite Hpost.
    destruct (find _ _) as [e|] eqn:Hfind.
    + pose proof Hfind as (Hin & He1 & He2 & He3)%find_pair_Some.
      pose proof (has_like_deleted_own db e p u Hone Hin (conj He1 (conj He2 He3)))
        as Hgone.
      do 4 eexists. split; [done|].
      rewrite (likePost_closed _ _ p u) by done.
      change (lookup_post p (deleted (Rel.id e) db)) with (lookup_post p db).
      rewrite Hpost, (not_has_like_find _ _ _ Hgone).
      split; [done|]. simpl.
      assert (Hc : like_count (created "likedBy" p u (deleted (Rel.id e) db)) p
                   = like_count db p).
      { unfold like_count at 1. rewrite edge_count_created.
        rewrite decide_True by done.
        rewrite <- (like_count_deleted db e p) by done.
        unfold like_count. lia. }
      repeat split; try done.
      * intros _. by exists e.
      * intros _. apply has_like_created. by right.
    + do 4 eexists. split; [done|].
      rewrite (likePost_closed _ _ p u) by done.
      change (lookup_post p (created "likedBy" p u db)) with (lookup_post p db).
      rewrite Hpost, (find_created _ _ _ _ Hfind). simpl.
      pose proof (deleted_created "likedBy" p u db Hwf) as Hrows.
      split; [done|]. split; [done|].
      rewrite (like_count_rows _ db p Hrows).
      split; [done|]. split; [done|].
      by apply has_like_rows.
  - intros [post7 Hpost7] Hzero.
    pose proof (deleted_created "likedBy" 7 1 db Hwf) as Hrows.
    set (db1 := created "likedBy" 7 1 db).
    set (db2 := deleted (posts_rels_seq db) db1) in *.
    set (db3 := created "likedBy" 7 2 db2).
    assert (Hzero2 : like_count db2 7 = 0%nat)
      by by rewrite (like_count_rows db2 db 7 Hrows).
    exists db1, db2, db3. split; [|split; [|split; [|split]]].
    + rewrite (likePost_closed _ _ 7 1) by done.
      rewrite Hpost7, (not_has_like_find _ _ _ (no_likes db 7 1 Hzero)).
      fold db1. do 3 f_equal.
      unfold db1, like_count. rewrite edge_count_created.
      fold (like_count db 7). rewrite Hzero. by rewrite decide_True.
    + rewrite (likePost_closed _ _ 7 1) by done.
      change (lookup_post 7 db1) with (lookup_post 7 db).
      rewrite Hpost7. unfold db1 at 1.
      rewrite (find_created _ _ _ _ (not_has_like_find _ _ _ (no_likes db 7 1 Hzero))).
      simpl. fold db2. by rewrite Hzero2.
    + rewrite (likePost_closed _ _ 7 2) by done.
      change (lookup_post 7 db2) with (lookup_post 7 db).
      rewrite Hpost7, (not_has_like_find _ _ _ (no_likes db2 7 2 Hzero2)).
      fold db3. do 3 f_equal.
      unfold db3, like_count. rewrite edge_count_created.
      fold (like_count db2 7). rewrite Hzero2. by rewrite decide_True.
    + rewrite (isPostLikedByUser_closed _ _ 7 1) by done.
      do 2 f_equal. apply bool_decide_eq_false_2.
      rewrite <- has_like_find. unfold db3. rewrite has_like_created.
      intros [Hl|(_ & ? & _)]; [|done]. by apply (no_likes db2 7 1 Hzero2).
    + rewrite (isPostLikedByUser_closed _ _ 7 2) by done.
      do 2 f_equal. apply bool_decide_eq_true_2.
      rewrite <- has_like_find. unfold db3. rewrite has_like_created. by right.
Qed.

Lemma like_twice_witness :
  ∃ db1 db2 db3,
    likePost (Scenario.n 7) (Scenario.n 1) Scenario.db0 =
      (inr {| liked := true; likeCount := 1;
              message := "Post liked successfully" |}, db1) ∧
    likePost (Scenario.n 7) (Scenario.n 1) db1 =
      (inr {| liked := false; likeCount := 0;
              message := "Post unliked successfully" |}, db2) ∧
    likePost (Scenario.n 7) (Scenario.n 2) db2 =
      (inr {| liked := true; likeCount := 1;
              message := "Post liked successfully" |}, db3) ∧
    isPostLikedByUser (Scenario.n 7) (Scenario.n 1) db3 = (inr false, db3) ∧
    isPostLikedByUser (Scenario.n 7) (Scenario.n 2) db3 = (inr true, db3).
Proof.
  assert (Hwf : wf_rels Scenario.db0).
  { split; simpl.
    - constructor.
    - intros r Hin. by apply elem_of_nil in Hin. }
  assert (Hone : at_most_one Scenario.db0).
  { intros p u. unfold edges. simpl. split; lia. }
  assert (Hpost : is_Some (lookup_post 7 Scenario.db0)).
  { exists Scenario.post7. reflexivity. }
  destruct (like_twice Scenario.db0 (Scenario.n 7) (Scenario.n 1) 7 1 Hwf Hone)
    as [_ Hscenario]; [reflexivity..|exact Hpost|].
  apply Hscenario; [exact Hpost|reflexivity].
Defined.

(** ** Who liked a post *)

Lemma getLikesByPostId_closed postId p db :
  Js.Number postId = Int p →
  getLikesByPostId postId db = (inr (entry_of db <$> like_edges db p), db).
Proof.
  intros Hp. unfold getLikesByPostId. rewrite Hp.
  unfold Prisma.posts_rels_findMany. run_M. do 2 f_equal.
  unfold like_edges.
  rewrite (list_filter_iff _ (λ r, Rel.parent_id r = p ∧ Rel.path r = "likedBy"))
    by (intros r; apply matches_parent).
  rewrite map_map. reflexivity.
Qed.

(** C8. [getLikesByPostId] returns one entry per Like edge on the post, in
    storage order, each with the edge's id, the reacting user's id and the
    summary of that user; the users listed are exactly the users who hold
    a Like edge on the post. *)
Theorem getLikesByPostId_lists_likers db postId p :
  Js.Number postId = Int p →
  ∃ likes,
    getLikesByPostId postId db = (inr likes, db) ∧
    length likes = like_count db p ∧
    Forall2 (λ entry r,
               le_id entry = Rel.id r ∧
               le_userId entry = Rel.user_id r ∧
               le_user entry =
                 summarize <$> (Rel.user_id r ≫= λ u, lookup_user u db))
            likes (like_edges db p) ∧
    ∀ u, Some u ∈ le_userId <$> likes ↔ has_like db p u.
Proof.
  intros Hp. eexists. split; [by apply getLikesByPostId_closed|].
  split; [by rewrite length_fmap|]. split.
  - apply Forall2_fmap_l, Forall_Forall2_diag, Forall_forall. by intros r _.
  - intros u. rewrite <- list_fmap_compose. rewrite list_elem_of_fmap.
    unfold has_like, like_edges. split.
    + intros (r & Hu & [[Hpar Hpath] Hin]%list_elem_of_filter).
      exists r. by repeat split.
    + intros (r & Hin & Hpar & Hu & Hpath). exists r. split; [done|].
      by apply list_elem_of_filter.
Qed.

Lemma getLikesByPostId_lists_likers_witness :
  let db := created "likedBy" 7 2 Scenario.db0 in
  ∃ likes,
    getLikesByPostId (JStr "7") db = (inr likes, db) ∧
    length likes = 1%nat ∧
    (Some 2 ∈ le_userId <$> likes ↔ has_like db 7 2).
Proof.
  intros db.
  destruct (getLikesByPostId_lists_likers db (JStr "7") 7)
    as (likes & Heq & Hlen & _ & Husers); [reflexivity|].
  exists likes. split; [exact Heq|]. split; [exact Hlen|exact (Husers 2)].
Defined.

(** ** What a reader of the like list can learn *)

Lemma summarize_public u1 u2 : public_eq u1 u2 → summarize u1 = summarize u2.
Proof.
  intros (Hid & Hname & Hurl & Havatar). unfold summarize.
  by rewrite Hid, Hname, Hurl, Havatar.
Qed.

Lemma find_user_public (us1 us2 : list User.t) id :
  Forall2 public_eq us1 us2 →
  summarize <$> find (λ user, bool_decide (User.id user = id)) us1 =
  summarize <$> find (λ user, bool_decide (User.id user = id)) us2.
Proof.
  induction 1 as [|u1 u2 us1 us2 Hu _ IH]; [done|]. simpl.
  destruct Hu as (Hid & Hrest). rewrite <- Hid.
  case_bool_decide; [|done]. simpl. f_equal.
  by apply summarize_public.
Qed.

Lemma entry_of_public db1 db2 r :
  Forall2 public_eq (users db1) (users db2) → entry_of db1 r = entry_of db2 r.
Proof.
  intros Hu. unfold entry_of, Prisma.include_user, lookup_user. f_equal.
  destruct (Rel.user_id r) as [u|]; [|done]. simpl.
  by apply find_user_public.
Qed.

(** C9. An entry of [getLikesByPostId] is made of the edge's id, its user
    id and the user's [id], [full_name], [avatar_url] and [avatar] (as
    [avatarUrl]); two stores that differ only in other user columns, such
    as [email] and [password], give the same list. *)
Theorem getLikesByPostId_hides_private db1 db2 postId :
  low_equiv db1 db2 →
  (getLikesByPostId postId db1).1 = (getLikesByPostId postId db2).1.
Proof.
  intros (_ & _ & Hrows & _ & Husers).
  destruct (Js.Number postId) as [p| |] eqn:Hp.
  - rewrite !(getLikesByPostId_closed _ p) by done. simpl. f_equal.
    unfold like_edges. rewrite Hrows.
    apply list_fmap_ext. intros i r _. by apply entry_of_public.
  - unfold getLikesByPostId. by rewrite Hp.
  - unfold getLikesByPostId. by rewrite Hp.
Qed.

Lemma getLikesByPostId_hides_private_witness :
  low_equiv (created "likedBy" 7 1 Scenario.db0) (created "likedBy" 7 1 Scenario.db0') ∧
  (getLikesByPostId (Scenario.n 7) (created "likedBy" 7 1 Scenario.db0)).1 =
  (getLikesByPostId (Scenario.n 7) (created "likedBy" 7 1 Scenario.db0')).1.
Proof.
  assert (Hlow : low_equiv (created "likedBy" 7 1 Scenario.db0)
                           (created "likedBy" 7 1 Scenario.db0')).
  { repeat split; simpl; try reflexivity.
    repeat constructor. }
  split; [exact Hlow|].
  apply (getLikesByPostId_hides_private _ _ (Scenario.n 7) Hlow).
Defined.

(** ** Requests without their identifiers *)

(** The routes that test their identifiers answer 400 and leave the
    services alone. *)
Lemma guarded_routes_reject {U : Type}
    (unlikeComment : jsval → jsval → M U)
    (isCommentLikedByUser : jsval → jsval → M bool) req db :
  (Js.truthy (prop (body req) "postId") = false ∨
   Js.truthy (prop (body req) "userId") = false →
   PostRouter.like req db =
     (Respond 400 (ErrorBody "Missing required fields: postId or userId"), db)) ∧
  (Js.truthy (prop (query req) "userId") = false →
   PostRouter.is_liked req db =
     (Respond 400 (ErrorBody "Missing required query parameter: userId"), db) ∧
   CommentRouter.is_liked isCommentLikedByUser req db =
     (Respond 400 (ErrorBody "Missing required query parameter: userId"), db)) ∧
  (Js.truthy (prop (body req) "userId") = false →
   CommentRouter.unlike_comment unlikeComment req db =
     (Respond 400 (ErrorBody "Missing required field: userId"), db)).
Proof.
  split; [|split].
  - unfold PostRouter.like. by intros [-> | ->]; rewrite ?orb_true_r.
  - unfold PostRouter.is_liked, CommentRouter.is_liked. by intros ->.
  - unfold CommentRouter.unlike_comment. by intros ->.
Qed.

(** C7. A like or a dislike of comment 5 that carries no [userId] is not
    answered with 400: the handler calls the service with [undefined] for
    the user, answers 200 with what the service returns and passes what it
    throws to [next]. *)
Theorem comment_like_unvalidated {R : Type}
    (likeComment dislikeComment : jsval → jsval → M R) db :
  let req := mk_request ∅ ∅ {[ "id" := JStr "5" ]} in
  CommentRouter.like_comment likeComment req db =
    match likeComment (JStr "5") JUndefined db with
    | (inr result, db') => (Respond 200 (Json result), db')
    | (inl error, db') => (Next error, db')
    end ∧
  CommentRouter.dislike_comment dislikeComment req db =
    match dislikeComment (JStr "5") JUndefined db with
    | (inr result, db') => (Respond 200 (Json result), db')
    | (inl error, db') => (Next error, db')
    end ∧
  (∀ p, (CommentRouter.like_comment likeComment req db).1 ≠ Respond 400 p) ∧
  (∀ p, (CommentRouter.dislike_comment dislikeComment req db).1 ≠ Respond 400 p).
Proof.
  intros req.
  unfold CommentRouter.like_comment, CommentRouter.dislike_comment, try_catch.
  change (prop (body req) "userId") with JUndefined.
  change (prop (params req) "id") with (JStr "5").
  split; [done|]. split; [done|].
  split; intros p.
  - by destruct (likeComment _ _ _) as [[e|r] db'].
  - by destruct (dislikeComment _ _ _) as [[e|r] db'].
Qed.

(** ** Reachable states *)

Lemma reachable_inv db : reachable db → ledger_inv db.
Proof. intros (db0 & ops & Hinit & ->). by apply run_inv, initial_inv. Qed.

(** ** The services at work on the small store *)

Example first_like :
  likePost (Scenario.n 7) (Scenario.n 1) Scenario.db0 =
    (inr {| liked := true; likeCount := 1; message := "Post liked successfully" |},
     created "likedBy" 7 1 Scenario.db0).
Proof. reflexivity. Qed.

Example like_by_nobody :
  likePost (Scenario.n 7) JUndefined Scenario.db0 =
    (inl PrismaClientValidationError, Scenario.db0).
Proof. reflexivity. Qed.

Example likers_of_post_7 :
  (getLikesByPostId (JStr "7") (created "likedBy" 7 2 Scenario.db0)).1 =
    inr [ {| le_id := 1;
             le_userId := Some 2;
             le_user := Some {| us_id := 2;
                                us_full_name := Some "Binh";
                                us_avatar_url := Some "https://example.org/b.png";
                                us_avatarUrl := None |} |} ].
Proof. reflexivity. Qed.

Example like_request_without_ids :
  PostRouter.like (mk_request ∅ ∅ ∅) Scenario.db0 =
    (Respond 400 (ErrorBody "Missing required fields: postId or userId"), Scenario.db0).
Proof. reflexivity. Qed.

Example like_request_post_zero :
  PostRouter.like
    (mk_request {[ "postId" := Scenario.n 0; "userId" := Scenario.n 1 ]} ∅ ∅)
    Scenario.db0 =
    (Respond 400 (ErrorBody "Missing required fields: postId or userId"), Scenario.db0).
Proof. reflexivity. Qed.

Example post_7_after_two_likes :
  match (getPostById (JStr "7")
           (created "likedBy" 7 2 (created "likedBy" 7 1 Scenario.db0))).1 with
  | inr (Some view) => pv_likeCount view = 2%nat
  | _ => False
  end.
Proof. reflexivity. Qed.

(** ** More on the like toggle *)



Lemma like_count_deleted_other db e q :
  wf_rels db → e ∈ posts_rels db → Rel.parent_id e ≠ q →
  like_count (deleted (Rel.id e) db) q = like_count db q.
Proof.
  intros [Hnd _] He Hq. unfold like_count, edge_count, deleted; simpl.
  rewrite <- (length_filter_delete _ (posts_rels db) e) by done.
  rewrite decide_False by (by intros [? _]). lia.
Qed.

(** X2. A successful like touches one pair and one count: with unique
    row keys, the count of the post goes up by one when the answer is
    [liked = true] and down by one when it is [liked = false], every
    other post keeps its count, every other pair keeps or lacks its edge
    as before, and the post, user and tag tables are not written. *)
Theorem likePost_frame postId userId p u db r db' :
  wf_rels db →
  Js.Number postId = Int p → Js.Number userId = Int u →
  likePost postId userId db = (inr r, db') →
  (liked r = true → like_count db' p = S (like_count db p)) ∧
  (liked r = false → S (like_count db' p) = like_count db p) ∧
  (∀ q, q ≠ p → like_count db' q = like_count db q) ∧
  (∀ q v, ¬ (q = p ∧ v = u) → has_like db' q v ↔ has_like db q v) ∧
  posts db' = posts db ∧ users db' = users db ∧ tags db' = tags db.
Proof.
  intros Hwf Hp Hu. rewrite (likePost_closed _ _ p u) by done.
  destruct (lookup_post p db); [|discriminate].
  destruct (find _ _) as [e|] eqn:Hfind; intros [= <- <-]; simpl.
  - apply find_pair_Some in Hfind as (Hin & He1 & He2 & He3).
    split; [done|]. split; [intros _; by apply like_count_deleted|].
    split; [intros q Hq; apply like_count_deleted_other; congruence|].
    split; [|done].
    intros q v Hne. apply has_like_deleted_other; [done..|].
    intros (? & ? & _). apply Hne. split; congruence.
  - split.
    { intros _. unfold like_count. rewrite edge_count_created.
      rewrite decide_True by done. lia. }
    split; [done|]. split.
    { intros q Hq. unfold like_count. rewrite edge_count_created.
      rewrite decide_False by (by intros [? _]). lia. }
    split; [|done].
    intros q v Hne. rewrite has_like_created. split; [|by left].
    intros [?|(-> & -> & _)]; [done|]. by destruct Hne.
Qed.

Lemma likePost_frame_witness :
  let db := created "likedBy" 7 1 Scenario.db0 in
  let db' := created "likedBy" 7 2 db in
  like_count db' 7 = S (like_count db 7) ∧
  (has_like db' 7 1 ↔ has_like db 7 1) ∧
  posts db' = posts db.
Proof.
  intros db db'.
  assert (Hwf : wf_rels db).
  { split; simpl.
    - repeat constructor. intros Hin. by apply elem_of_nil in Hin.
    - intros r Hin. apply list_elem_of_singleton in Hin. rewrite Hin. simpl. lia. }
  destruct (likePost_frame (Scenario.n 7) (JStr "2") 7 2 db
              {| liked := true; likeCount := 2; message := "Post liked successfully" |}
              db' Hwf)
    as (Hup & _ & _ & Hpairs & Hposts & _); [reflexivity..|].
  split; [apply Hup; reflexivity|]. split; [|exact Hposts].
  apply Hpairs. intros [_ Hv]. discriminate Hv.
Defined.

(** X3. What a like answers is what the reads then show: right after a
    successful [likePost], [isPostLikedByUser] gives the [liked] flag,
    [getLikesByPostId] lists [likeCount] entries and [getPostById] reports
    the same [likeCount]. *)
Theorem like_then_read postId userId db r db' :
  at_most_one db →
  likePost postId userId db = (inr r, db') →
  isPostLikedByUser postId userId db' = (inr (liked r), db') ∧
  (∃ likes, getLikesByPostId postId db' = (inr likes, db') ∧
            length likes = likeCount r) ∧
  (∃ view, getPostById postId db' = (inr (Some view), db') ∧
           pv_likeCount view = likeCount r).
Proof.
  intros Hone Hlike.
  destruct (Js.Number postId) as [p| |] eqn:Hp;
    [|unfold likePost in Hlike; rewrite Hp in Hlike; discriminate Hlike..].
  assert (∃ u, Js.Number userId = Int u) as [u Hu].
  { destruct (Js.Number userId) as [u| |] eqn:Hu; [by exists u|..];
      unfold likePost in Hlike; rewrite Hp, Hu in Hlike;
      erewrite M_bind_inr in Hlike by apply findUnique_closed;
      destruct (lookup_post p db); discriminate Hlike. }
  rewrite (likePost_closed _ _ p u) in Hlike by done.
  destruct (lookup_post p db) as [post|] eqn:Hpost; [|discriminate Hlike].
  assert (Hpost' : lookup_post p db' = Some post).
  { destruct (find _ _); injection Hlike as <- <-; exact Hpost. }
  assert (Hcount : likeCount r = like_count db' p).
  { destruct (find _ _); by injection Hlike as <- <-. }
  assert (Hflag : liked r = true ↔ has_like db' p u).
  { destruct (find _ _) as [e|] eqn:Hfind; injection Hlike as <- <-; simpl.
    - apply find_pair_Some in Hfind as [Hin He].
      split; [done|]. intros Hl. by destruct (has_like_deleted_own db e p u).
    - split; [intros _|done]. apply has_like_created. by right. }
  split; [|split].
  - rewrite (isPostLikedByUser_closed _ _ p u) by done. do 2 f_equal.
    destruct (liked r).
    + apply bool_decide_eq_true_2, has_like_find. by apply Hflag.
    + apply bool_decide_eq_false_2. intros Hl%has_like_find. by apply Hflag in Hl.
  - eexists. split; [by apply getLikesByPostId_closed|].
    by rewrite length_fmap, Hcount.
  - unfold getPostById. rewrite Hp.
    erewrite M_bind_inr by apply findUnique_closed. rewrite Hpost'.
    eexists. split; [reflexivity|]. simpl.
    apply lookup_post_id in Hpost'. rewrite Hcount.
    unfold Prisma.include_posts_rels, like_count, edge_count.
    rewrite list_filter_filter, Hpost'.
    f_equal. apply list_filter_iff. intros x. tauto.
Qed.

Lemma like_then_read_witness :
  let db' := created "likedBy" 7 1 Scenario.db0 in
  isPostLikedByUser (Scenario.n 7) (JStr "1") db' = (inr true, db') ∧
  (∃ likes, getLikesByPostId (Scenario.n 7) db' = (inr likes, db') ∧
            length likes = 1%nat).
Proof.
  intros db'.
  assert (Hone : at_most_one Scenario.db0).
  { intros p u. unfold edges. simpl. split; lia. }
  destruct (like_then_read (Scenario.n 7) (JStr "1") Scenario.db0
              {| liked := true; likeCount := 1; message := "Post liked successfully" |}
              db' Hone)
    as (Hflag & Hlikes & _); [reflexivity|].
  split; [exact Hflag|exact Hlikes].
Defined.

Lemma NoDup_omap_once {A B : Type} `{!EqDecision B} (f : A → option B) (l : list A) :
  (∀ b, (length (filter (λ x, f x = Some b) l) ≤ 1)%nat) →
  NoDup (omap f l).
Proof.
  induction l as [|x l IH]; intros Honce; [constructor|].
  assert (Hl : ∀ b, (length (filter (λ x, f x = Some b) l) ≤ 1)%nat).
  { intros b. specialize (Honce b). rewrite filter_cons in Honce.
    destruct (decide (f x = Some b)); simpl in Honce; lia. }
  simpl. destruct (f x) as [b|] eqn:Hfx; [|by apply IH].
  apply NoDup_cons. split; [|by apply IH].
  intros (y & Hy & Hfy)%list_elem_of_omap.
  specialize (Honce b). rewrite filter_cons_True in Honce by done.
  assert (Hin : y ∈ filter (λ x, f x = Some b) l) by by apply list_elem_of_filter.
  destruct (filter _ l); [by apply elem_of_nil in Hin|]. simpl in Honce. lia.
Qed.

(** X4. In a store that keeps the at-most-one rule, [getLikesByPostId]
    lists no user twice. *)
Theorem likers_listed_once db postId p :
  at_most_one db →
  Js.Number postId = Int p →
  ∃ likes, getLikesByPostId postId db = (inr likes, db) ∧
           NoDup (omap le_userId likes).
Proof.
  intros Hone Hp. eexists. split; [by apply getLikesByPostId_closed|].
  assert (Heq : omap le_userId (entry_of db <$> like_edges db p)
                = omap Rel.user_id (like_edges db p)).
  { induction (like_edges db p) as [|x l IH]; [done|].
    csimpl. by rewrite IH. }
  rewrite Heq. apply NoDup_omap_once. intros u.
  destruct (Hone p u) as [Hl _]. unfold edges, like_edges in *.
  rewrite list_filter_filter.
  erewrite list_filter_iff; [exact Hl|]. intros r. simpl. tauto.
Qed.

Lemma likers_listed_once_witness :
  let db := created "likedBy" 7 2 (created "likedBy" 7 1 Scenario.db0) in
  at_most_one db ∧
  ∃ likes, getLikesByPostId (JStr "7") db = (inr likes, db) ∧
           NoDup (omap le_userId likes).
Proof.
  intros db.
  assert (Hone0 : at_most_one Scenario.db0).
  { intros p u. unfold edges. simpl. split; lia. }
  assert (Hone : at_most_one db).
  { apply at_most_one_created; [|reflexivity].
    apply at_most_one_created; [exact Hone0|reflexivity]. }
  split; [exact Hone|].
  apply (likers_listed_once db (JStr "7") 7 Hone). reflexivity.
Defined.



(** ** Image URLs *)

Lemma filled_Some s : filled s = true → ∃ t, s = Some t ∧ t ≠ EmptyString.
Proof.
  destruct s as [t|]; [|done]. simpl. intros Ht. exists t. split; [done|].
  intros ->. done.
Qed.

Lemma key_url_nonempty key : key_url key ≠ EmptyString.
Proof. unfold key_url. by destruct (String.prefix _ _). Qed.

(** X6. The list of a user's posts formats the image of a post as the
    detail view does.  The list of all posts differs from them in one
    case only: a post whose [image_id] is set, whose media row is missing
    and which has a direct [image_url]; there [getAllPosts] shows the
    direct URL and [getPostById] shows none. *)
Theorem mediaUrl_all_differs_iff post media :
  mediaUrl_by_user post media = imageUrl post media ∧
  (mediaUrl_all post media ≠ imageUrl post media ↔
   Post.image_id post ≠ None ∧ media = None ∧ filled (Post.image_url post) = true ∧
   mediaUrl_all post media = Post.image_url post ∧ imageUrl post media = None).
Proof.
  split; [done|].
  unfold mediaUrl_all, imageUrl.
  destruct (Post.image_id post) as [i|] eqn:Hid; simpl.
  - destruct media as [m|].
    + split; [done|]. by intros (_ & ? & _).
    + destruct (filled (Post.image_url post)) eqn:Hf.
      * split; [done|]. intros _.
        apply filled_Some in Hf as (t & -> & _). done.
      * split; [done|]. by intros (_ & _ & ? & _).
  - destruct (filled (Post.image_url post)) eqn:Hf; simpl.
    + split; [done|]. by intros (? & _).
    + destruct media as [m|]; split; try done; by intros (? & _).
Qed.

(** X7. The image URL of the detail view is never the empty text, and it
    is missing exactly when the post has no usable source: no direct URL
    on a post without [image_id], and no media row with a URL or a key. *)
Theorem imageUrl_sources post media :
  imageUrl post media ≠ Some EmptyString ∧
  (imageUrl post media = None ↔
   (bool_decide (Post.image_id post = None) && filled (Post.image_url post) = false) ∧
   (media = None ∨
    ∃ m, media = Some m ∧ filled (Media.url m) = false ∧ filled (Media.key m) = false)).
Proof.
  unfold imageUrl.
  destruct (bool_decide _ && filled (Post.image_url post)) eqn:Hdirect.
  - apply andb_true_iff in Hdirect as [_ (t & -> & Ht)%filled_Some].
    split; [congruence|]. split; [done|]. by intros [? _].
  - destruct media as [m|]; [|split; [done|]; split; auto].
    destruct (filled (Media.url m)) eqn:Hurl.
    + apply filled_Some in Hurl as Hurl'. destruct Hurl' as (t & -> & Ht).
      split; [congruence|]. split; [done|].
      intros [_ [?|(m' & [= <-] & Hu & _)]]; [done|].
      rewrite Hu in Hurl. done.
    + destruct (filled (Media.key m)) eqn:Hkey.
      * apply filled_Some in Hkey as Hkey'. destruct Hkey' as (k & -> & Hk). simpl.
        split; [intros [= H]; by apply key_url_nonempty in H|].
        split; [done|].
        intros [_ [?|(m' & [= <-] & _ & Hk')]]; [done|].
        rewrite Hk' in Hkey. done.
      * split; [done|]. split; [|done]. intros _. split; [done|]. right. eauto.
Qed.

(** X8. An UploadThing image (a media key that starts with [ut_], on a
    media row without URL, of a post that does not show a direct URL)
    gets two different URLs: the detail view serves it from
    [UPLOADTHING_BASE_URL], the post that [commentPost] returns from
    [IMAGE_BASE_URL]. *)
Theorem commentPost_image_differs post m key :
  Media.url m = None → Media.key m = Some key →
  String.prefix "ut_" key = true →
  bool_decide (Post.image_id post = None) && filled (Post.image_url post) = false →
  imageUrl post (Some m) = Some (UPLOADTHING_BASE_URL +:+ key) ∧
  imageUrl_comment (Some m) = Some (IMAGE_BASE_URL +:+ key) ∧
  imageUrl post (Some m) ≠ imageUrl_comment (Some m).
Proof.
  intros Hurl Hkey Hut Hdirect.
  assert (Hfilled : filled (Some key) = true).
  { destruct key as [|c key]; [done|]. done. }
  assert (H1 : imageUrl post (Some m) = Some (UPLOADTHING_BASE_URL +:+ key)).
  { unfold imageUrl. rewrite Hdirect, Hurl, Hkey, Hfilled. simpl.
    unfold key_url. by rewrite Hut. }
  assert (H2 : imageUrl_comment (Some m) = Some (IMAGE_BASE_URL +:+ key)).
  { unfold imageUrl_comment. by rewrite Hkey, Hfilled. }
  split; [done|]. split; [done|].
  rewrite H1, H2. intros [= H].
Qed.

Lemma commentPost_image_differs_witness :
  imageUrl Scenario.post7 (Some Sample.uploaded) =
    Some "https://uploadthing.com/f/ut_abc123" ∧
  imageUrl_comment (Some Sample.uploaded) =
    Some "https://qauff8c31y.ufs.sh/f/ut_abc123".
Proof.
  destruct (commentPost_image_differs Scenario.post7 Sample.uploaded "ut_abc123")
    as (H1 & H2 & _); [reflexivity..|].
  split; [exact H1|exact H2].
Defined.

(** ** Pages *)











Lemma totalPages_bounds total o :
  1 ≤ Paging.limit o →
  ∃ n, Paging.totalPages total o = Some n ∧
       0 ≤ n ∧
       (n - 1) * Paging.limit o < Z.of_nat total ∧ Z.of_nat total ≤ n * Paging.limit o.
Proof.
  intros Hl. unfold Paging.totalPages.
  destruct (Paging.limit o =? 0) eqn:Hz; [apply Z.eqb_eq in Hz; lia|].
  eexists. split; [reflexivity|].
  set (l := Paging.limit o) in *. set (t := Z.of_nat total).
  assert (Ht : 0 ≤ t) by (unfold t; lia).
  pose proof (Z.mul_div_le (- t) l ltac:(lia)) as H1.
  pose proof (Z.mul_succ_div_gt (- t) l ltac:(lia)) as H2.
  assert (Hq : (- t) / l ≤ 0) by (apply Z.div_le_upper_bound; lia).
  nia.
Qed.

(** X10. For a limit of at least one, the page count is the least number
    of pages of that size that hold all the rows:
    (totalPages - 1) * limit < totalCount <= totalPages * limit. *)
Theorem totalPages_least_cover total o :
  1 ≤ Paging.limit o →
  ∃ n, Paging.totalPages total o = Some n ∧
       0 ≤ n ∧
       (n - 1) * Paging.limit o < Z.of_nat total ≤ n * Paging.limit o.
Proof.
  intros Hl.
  destruct (totalPages_bounds total o Hl) as (n & Hn & H0 & Hlow & Hhigh).
  exists n. repeat split; done.
Qed.

Lemma totalPages_least_cover_witness :
  let o := Paging.options_of_query (Some "2") None None None None in
  ∃ n, Paging.totalPages 21 o = Some n ∧ 0 ≤ n ∧
       (n - 1) * Paging.limit o < 21 ≤ n * Paging.limit o.
Proof.
  intros o. apply (totalPages_least_cover 21 o). vm_compute. discriminate.
Defined.



(** ** Editing the tags of a post *)

Lemma deleteMany_closed p db :
  ∃ n, Tx.posts_rels_deleteMany (Int p) "tags" db = (inr n, tags_cleared p db).
Proof.
  eexists. unfold Tx.posts_rels_deleteMany, tags_cleared. run_M.
  do 2 f_equal. apply list_filter_iff. intros r. by rewrite matches_parent.
Qed.

Lemma create_tag_closed p t db :
  ∃ row, Tx.posts_rels_create_tag (Int p) (Int t) "tags" db = (inr row, tag_added p t db).
Proof. eexists. reflexivity. Qed.

Lemma tags_added_seq p ts db :
  posts_rels_seq db ≤ posts_rels_seq (tags_added p ts db).
Proof.
  revert db. induction ts as [|t ts IH]; intros db; simpl; [lia|].
  etrans; [|apply IH]. simpl. lia.
Qed.

Lemma tags_added_tables p ts db :
  posts (tags_added p ts db) = posts db ∧
  users (tags_added p ts db) = users db ∧
  tags (tags_added p ts db) = tags db.
Proof.
  revert db. induction ts as [|t ts IH]; intros db; simpl; [done|].
  destruct (IH (tag_added p t db)) as (-> & -> & ->). done.
Qed.

(** The rows [tags_added] appends: one tag relation of [p] per tag, in
    the order of the list. *)
Lemma tags_added_rows p ts db :
  ∃ new, posts_rels (tags_added p ts db) = posts_rels db ++ new ∧
         Rel.tags_id <$> new = Some <$> ts ∧
         Forall (λ r, Rel.parent_id r = p ∧ Rel.user_id r = None ∧ Rel.path r = "tags") new.
Proof.
  revert db. induction ts as [|t ts IH]; intros db; simpl.
  - exists []. by rewrite app_nil_r.
  - destruct (IH (tag_added p t db)) as (new & Hrows & Hids & Hall).
    exists (Rel.mk (posts_rels_seq db) p None (Some t) "tags" :: new).
    split; [|split].
    + rewrite Hrows. simpl. by rewrite <- app_assoc.
    + rewrite !fmap_cons, Hids. done.
    + constructor; [done|exact Hall].
Qed.

(** The loop over the tag ids: all of them integers, and every relation
    is added; one that is not, and the loop stops there with the client's
    refusal. *)
Lemma for_of_tags p tagIds db :
  match as_ids tagIds with
  | Some ts =>
      Tx.for_of tagIds (λ tagId,
        Tx.posts_rels_create_tag (Int p) (Js.Number tagId) "tags";; mret ()) db
      = (inr (), tags_added p ts db)
  | None =>
      ∃ ts, Tx.for_of tagIds (λ tagId,
              Tx.posts_rels_create_tag (Int p) (Js.Number tagId) "tags";; mret ()) db
            = (inl PrismaClientValidationError, tags_added p ts db)
  end.
Proof.
  revert db. induction tagIds as [|tagId tagIds IH]; intros db; [done|].
  unfold as_ids in *. simpl.
  destruct (Js.Number tagId) as [t| |] eqn:Ht; simpl;
    [|by exists []..].
  specialize (IH (tag_added p t db)).
  destruct (mapM _ tagIds) as [ts|]; simpl.
  - unfold mbind at 1, M_bind at 1. unfold mbind at 1, M_bind at 1.
    destruct (create_tag_closed p t db) as [row ->]. simpl. exact IH.
  - destruct IH as [ts IH]. exists (t :: ts).
    unfold mbind at 1, M_bind at 1. unfold mbind at 1, M_bind at 1.
    destruct (create_tag_closed p t db) as [row ->]. simpl. exact IH.
Qed.

(** The three ways [updatePost] ends: rolled back from a state [d] it had
    reached, returned without touching the tags, or returned with the
    tags of the post replaced. *)
Lemma updatePost_outcome update_row postId tagIds db :
  let db1 := (update_row db).2 in
  let rolled d := set_posts_rels (posts_rels db) (posts_rels_seq d) db in
  (∃ e d, Tx.updatePost update_row postId tagIds db = (inl e, rolled d) ∧
          (d = db1 ∨ ∃ p ts, d = tags_added p ts (tags_cleared p db1)) ∧
          ¬ ((∃ post, (update_row db).1 = inr post) ∧
             (tagIds = None ∨
              ∃ l, tagIds = Some l ∧ (∃ p, Js.Number postId = Int p) ∧
                   is_Some (as_ids l)))) ∨
  (∃ post, (update_row db).1 = inr post ∧ tagIds = None ∧
           Tx.updatePost update_row postId tagIds db = (inr post, db1)) ∨
  (∃ post p l ts, (update_row db).1 = inr post ∧ tagIds = Some l ∧
                  Js.Number postId = Int p ∧ as_ids l = Some ts ∧
                  Tx.updatePost update_row postId tagIds db =
                    (inr post, tags_added p ts (tags_cleared p db1))).
Proof.
  intros db1 rolled. subst db1 rolled. cbv beta.
  unfold Tx.updatePost, Tx.transaction.
  destruct (update_row db) as [[e|post] db1] eqn:Hrow; cbn [fst snd].
  { erewrite M_bind_inl by exact Hrow.
    left. exists e, db1. split; [done|]. split; [by left|].
    intros [[post Hpost] _]. discriminate Hpost. }
  erewrite M_bind_inr by exact Hrow.
  destruct tagIds as [l|].
  2:{ right. left. exists post. split; [done|]. split; [done|]. reflexivity. }
  destruct (Js.Number postId) as [p| |] eqn:Hp.
  2,3: left; eexists _, db1; (split; [reflexivity|]); (split; [by left|]);
       intros [_ [Hnone|(l' & _ & [q Hq] & _)]]; [discriminate Hnone|discriminate Hq].
  destruct (deleteMany_closed p db1) as [n Hdel].
  pose proof (for_of_tags p l (tags_cleared p db1)) as Hloop.
  destruct (as_ids l) as [ts|] eqn:Hids.
  - right. right. exists post, p, l, ts.
    do 4 (split; [done|]).
    erewrite (M_bind_inr _ _ db1 ()); [reflexivity|].
    erewrite M_bind_inr by exact Hdel. exact Hloop.
  - destruct Hloop as [ts Hloop]. left. eexists _, _. split.
    + erewrite (M_bind_inl _ _ db1); [reflexivity|].
      erewrite M_bind_inr by exact Hdel. exact Hloop.
    + split; [right; eauto|].
      intros [_ [Hnone|(l' & Hl' & _ & [ts' Hts'])]]; [discriminate Hnone|].
      injection Hl' as <-. congruence.
Qed.

Lemma find_row_state p db : (Sample.find_row p db).2 = db.
Proof.
  unfold Sample.find_row.
  erewrite M_bind_inr by apply findUnique_closed.
  by destruct (lookup_post p db).
Qed.

Lemma find_row_keeps p : keeps_rels (Sample.find_row p).
Proof. intros db. by rewrite find_row_state. Qed.

Lemma filter_tags_added (P : Rel.t → Prop) `{!∀ r, Decision (P r)} p ts db :
  (∀ r, Rel.parent_id r = p → Rel.path r = "tags" → ¬ P r) →
  filter P (posts_rels (tags_added p ts (tags_cleared p db))) = filter P (posts_rels db).
Proof.
  intros HP.
  destruct (tags_added_rows p ts (tags_cleared p db)) as (new & -> & _ & Hnew).
  rewrite filter_app. unfold tags_cleared; simpl.
  rewrite (filter_none P new), app_nil_r.
  - rewrite list_filter_filter. apply list_filter_iff. intros r.
    split; [by intros [? _]|]. intros Hr. split; [done|]. intros [? ?]. by eapply HP.
  - intros r Hr. rewrite Forall_forall in Hnew.
    destruct (Hnew r Hr) as (? & _ & ?). by apply HP.
Qed.

(** What [updatePost] leaves of the relation table: every row that is
    not a tag relation of the edited post, as it was and where it was. *)
Lemma updatePost_filter (P : Rel.t → Prop) `{!∀ r, Decision (P r)}
    update_row postId tagIds db :
  keeps_rels update_row →
  (∀ p r, Js.Number postId = Int p →
          Rel.parent_id r = p → Rel.path r = "tags" → ¬ P r) →
  filter P (posts_rels (Tx.updatePost update_row postId tagIds db).2) =
  filter P (posts_rels db).
Proof.
  intros Hkeep HP. destruct (Hkeep db) as (Hrows & _).
  destruct (updatePost_outcome update_row postId tagIds db)
    as [(e & d & -> & _)|[(post & _ & _ & ->)|(post & p & l & ts & _ & _ & Hp & _ & ->)]];
    simpl.
  - done.
  - by rewrite Hrows.
  - rewrite filter_tags_added by eauto. by rewrite Hrows.
Qed.

Lemma has_like_filter db p u :
  has_like db p u ↔
  ∃ r, r ∈ filter (λ r, Rel.path r = "likedBy") (posts_rels db) ∧
       Rel.parent_id r = p ∧ Rel.user_id r = Some u.
Proof.
  unfold has_like. split.
  - intros (r & Hin & Hp & Hu & Hpath). exists r.
    split; [by apply list_elem_of_filter|done].
  - intros (r & [Hpath Hin]%list_elem_of_filter & Hp & Hu). by exists r.
Qed.

(** X12. Editing a post leaves the likes alone: whatever [updatePost]
    does to the tags of the post, and whether it returns or throws, every
    like count and every Like edge is as before, the tag relations of the
    other posts are untouched, and the user and tag tables are not
    written. *)
Theorem updatePost_keeps_likes update_row postId tagIds db :
  keeps_rels update_row →
  let db' := (Tx.updatePost update_row postId tagIds db).2 in
  (∀ q, like_count db' q = like_count db q) ∧
  (∀ q u, has_like db' q u ↔ has_like db q u) ∧
  (∀ q, Js.Number postId ≠ Int q → tag_rows db' q = tag_rows db q) ∧
  users db' = users db ∧ tags db' = tags db.
Proof.
  intros Hkeep db'. subst db'. split; [|split; [|split]].
  - intros q. unfold like_count, edge_count.
    by rewrite updatePost_filter by (try done; intros p r _ _ Ht [_ Hl]; congruence).
  - intros q u. rewrite !has_like_filter.
    by rewrite updatePost_filter by (try done; intros p r _ _ Ht Hl; congruence).
  - intros q Hq. unfold tag_rows.
    by rewrite updatePost_filter by (try done; intros p r Hp Hr _ [Hr' _]; congruence).
  - destruct (Hkeep db) as (_ & _ & Husers & Htags).
    destruct (updatePost_outcome update_row postId tagIds db)
      as [(e & d & -> & _)|[(post & _ & _ & ->)|(post & p & l & ts & _ & _ & Hp & _ & ->)]];
      simpl; [done|done|].
    destruct (tags_added_tables p ts (tags_cleared p (update_row db).2))
      as (_ & -> & ->). done.
Qed.

Lemma updatePost_keeps_likes_witness :
  let db' := (Tx.updatePost (Sample.find_row 7) (JStr "7")
                (Some [JNum (Int 6); JStr "5"]) Sample.db1).2 in
  like_count db' 7 = like_count Sample.db1 7 ∧
  (has_like db' 7 1 ↔ has_like Sample.db1 7 1).
Proof.
  intros db'.
  destruct (updatePost_keeps_likes (Sample.find_row 7) (JStr "7")
              (Some [JNum (Int 6); JStr "5"]) Sample.db1 (find_row_keeps 7))
    as (Hcount & Hlike & _).
  split; [exact (Hcount 7)|exact (Hlike 7 1)].
Defined.



Lemma getPostById_tags id p db view db' :
  Js.Number id = Int p →
  getPostById id db = (inr (Some view), db') →
  pv_tags view = omap (Prisma.include_tags db) (tag_rows db p).
Proof.
  intros Hid. unfold getPostById. rewrite Hid.
  erewrite M_bind_inr by apply findUnique_closed.
  destruct (lookup_post p db) as [post|]; [|done].
  intros [= <- <-]. simpl. unfold tag_rows.
  rewrite (list_filter_iff _ (λ r, Rel.parent_id r = p ∧ Rel.path r = "tags"))
    by (intros r; apply matches_parent).
  induction (filter _ (posts_rels db)) as [|r l IH]; [done|].
  csimpl. rewrite IH. done.
Qed.






Lemma wf_rels_ext db1 db2 :
  posts_rels db1 = posts_rels db2 → posts_rels_seq db2 ≤ posts_rels_seq db1 →
  wf_rels db2 → wf_rels db1.
Proof.
  intros Hrows Hseq [Hnd Hlt]. split; rewrite Hrows; [done|].
  intros r Hr. apply Hlt in Hr. lia.
Qed.

Lemma wf_rels_tag_added p t db : wf_rels db → wf_rels (tag_added p t db).
Proof.
  intros [Hnd Hlt]. split; simpl.
  - rewrite fmap_app. apply NoDup_app. split; [done|]. split.
    + intros i (r & Hi & Hin)%list_elem_of_fmap [Hs|[]%elem_of_nil]%elem_of_cons.
      apply Hlt in Hin. simpl in Hs. lia.
    + apply NoDup_singleton.
  - intros r [Hin|[->|[]%elem_of_nil]%elem_of_cons]%elem_of_app.
    + apply Hlt in Hin. lia.
    + simpl. lia.
Qed.

Lemma wf_rels_tags_added p ts db : wf_rels db → wf_rels (tags_added p ts db).
Proof.
  revert db. induction ts as [|t ts IH]; intros db Hwf; [done|].
  simpl. by apply IH, wf_rels_tag_added.
Qed.

Lemma sample_db1_inv : ledger_inv Sample.db1.
Proof.
  set (base := {| posts := posts Sample.db1; users := users Sample.db1;
                  tags := tags Sample.db1;
                  posts_rels := [Rel.mk 1 7 None (Some 5) "tags"];
                  posts_rels_seq := 2 |}).
  assert (Hinit : initial base).
  { split; [split|]; simpl.
    - apply NoDup_singleton.
    - intros r Hr. apply list_elem_of_singleton in Hr. rewrite Hr. simpl. lia.
    - intros r Hr. apply list_elem_of_singleton in Hr. by rewrite Hr. }
  destruct (initial_inv base Hinit) as [Hwf Hone].
  change Sample.db1 with (created "likedBy" 7 1 base).
  split; [by apply wf_rels_created|by apply at_most_one_created].
Qed.

(** X15. [updatePost] keeps the ledger's invariants: from a store with
    unique row keys below the id sequence and at most one Like and one
    Dislike edge per pair it leaves such a store, whether it returns or
    throws. *)
Theorem updatePost_keeps_invariants update_row postId tagIds db :
  keeps_rels update_row →
  wf_rels db → at_most_one db →
  wf_rels (Tx.updatePost update_row postId tagIds db).2 ∧
  at_most_one (Tx.updatePost update_row postId tagIds db).2.
Proof.
  intros Hkeep Hwf Hone. split.
  - destruct (Hkeep db) as (Hrows & Hseq & _).
    assert (Hwf1 : wf_rels (update_row db).2)
      by (apply (wf_rels_ext _ db); [exact Hrows|lia|exact Hwf]).
    destruct (updatePost_outcome update_row postId tagIds db)
      as [(e & d & -> & Hd & _)|[(post & _ & _ & ->)|(post & p & l & ts & _ & _ & Hp & _ & ->)]];
      simpl.
    + apply (wf_rels_ext _ db); [reflexivity| |exact Hwf]. simpl.
      destruct Hd as [->|(p & ts & ->)]; [lia|].
      etrans; [|apply tags_added_seq]. simpl. lia.
    + done.
    + apply wf_rels_tags_added. by apply wf_rels_filter.
  - intros q u. destruct (Hone q u) as [Hl Hd]. unfold edges in *.
    rewrite !updatePost_filter; try done;
      intros p r _ _ Ht (_ & _ & Hpath); congruence.
Qed.

Lemma updatePost_keeps_invariants_witness :
  let db' := (Tx.updatePost (Sample.find_row 7) (JStr "7")
                (Some [JNum (Int 6); JStr "5"]) Sample.db1).2 in
  wf_rels db' ∧ at_most_one db'.
Proof.
  intros db'.
  destruct sample_db1_inv as [Hwf Hone].
  apply (updatePost_keeps_invariants (Sample.find_row 7) (JStr "7")
           (Some [JNum (Int 6); JStr "5"]) Sample.db1 (find_row_keeps 7) Hwf Hone).
Defined.

(** ** One post in the list and in the detail view *)

Lemma omap_tags_of_rows db (rows : list Rel.t) :
  omap (λ rel : Rel.t * option Tag.t,
          if bool_decide (Rel.path rel.1 = "tags") then
            (λ tag, Tag.mk (Tag.id tag) (Tag.name tag)) <$> rel.2
          else None)
       (map (λ rel, (rel, Prisma.include_tags db rel)) rows) =
  omap (Prisma.include_tags db) (filter (λ r, Rel.path r = "tags") rows).
Proof.
  induction rows as [|r rows IH]; [done|].
  rewrite filter_cons. cbn [map]. csimpl. rewrite IH.
  case_bool_decide as Hpath.
  - rewrite decide_True by done. csimpl.
    destruct (Prisma.include_tags db r) as [[i n]|]; done.
  - by rewrite decide_False.
Qed.

(** X16. The list routes and the detail route show the same facts about
    a post: an entry of [getAllPosts] or [getPostsByUserId] carries the
    like count, the tags and the author summary that [getPostById]
    returns for that post, and the like count is the number of Like
    edges on it. *)
Theorem list_entry_agrees_with_detail mediaUrl db media id p post :
  Js.Number id = Int p →
  lookup_post p db = Some post →
  ∃ view,
    getPostById id db = (inr (Some view), db) ∧
    let entry := format_post mediaUrl db media post in
    lp_likeCount entry = pv_likeCount view ∧
    lp_likeCount entry = like_count db p ∧
    lp_tags entry = pv_tags view ∧
    lp_user entry = pv_user view.
Proof.
  intros Hid Hpost.
  assert (Hget : ∃ view, getPostById id db = (inr (Some view), db) ∧
                         pv_user view =
                           summarize <$> (u ← Post.user_id_id post; lookup_user u db)).
  { unfold getPostById. rewrite Hid.
    erewrite M_bind_inr by apply findUnique_closed. rewrite Hpost.
    eexists. split; reflexivity. }
  destruct Hget as (view & Hget & Huser). exists view. split; [done|].
  destruct (getPostById_likeCount _ _ _ _ _ Hid Hget) as [_ Hcount].
  pose proof (getPostById_tags _ _ _ _ _ Hid Hget) as Htags.
  pose proof (lookup_post_id _ _ _ Hpost) as Hpid.
  assert (Hl : lp_likeCount (format_post mediaUrl db media post) = like_count db p).
  { simpl. unfold Prisma.include_posts_rels, like_count, edge_count. rewrite Hpid.
    induction (posts_rels db) as [|r rows IH]; [done|].
    rewrite !filter_cons. repeat case_decide; simpl in *;
      rewrite ?filter_cons; repeat case_decide; simpl in *;
      try (exfalso; tauto); by rewrite ?IH. }
  simpl. split; [by rewrite Hcount|]. split; [exact Hl|]. split; [|by rewrite Huser].
  rewrite Htags, omap_tags_of_rows. f_equal.
  unfold Prisma.include_posts_rels, tag_rows. rewrite Hpid.
  rewrite list_filter_filter. apply list_filter_iff. intros r. tauto.
Qed.

Lemma list_entry_agrees_with_detail_witness :
  ∃ view,
    getPostById (JStr "7") Sample.db1 = (inr (Some view), Sample.db1) ∧
    lp_likeCount (getAllPosts_entry Sample.db1 None Scenario.post7) = pv_likeCount view ∧
    lp_likeCount (getAllPosts_entry Sample.db1 None Scenario.post7) = 1%nat ∧
    lp_tags (getAllPosts_entry Sample.db1 None Scenario.post7) = pv_tags view.
Proof.
  destruct (list_entry_agrees_with_detail mediaUrl_all Sample.db1 None (JStr "7") 7
              Scenario.post7) as (view & Hget & Hc & Hl & Ht & _); [reflexivity..|].
  exists view. split; [exact Hget|]. split; [exact Hc|]. split; [exact Hl|exact Ht].
Defined.

(** ** Creating a comment *)

(** X17. A client cannot set the counters of a new comment: whatever
    [likes] and [dislikes] the request body carries, [createComment] gets
    both as 0, so two requests that differ only in these two fields are
    answered alike and leave the same store. *)
Theorem create_comment_counters {R : Type} (createComment : gmap string jsval → M R)
    req1 req2 db :
  (∀ k, k ≠ "likes" → k ≠ "dislikes" → body req1 !! k = body req2 !! k) →
  create_comment createComment req1 db = create_comment createComment req2 db.
Proof.
  intros Hsame. unfold create_comment.
  assert (Hdata :
    <["dislikes" := JNum (Int 0)]> (<["likes" := JNum (Int 0)]> (body req1)) =
    <["dislikes" := JNum (Int 0)]> (<["likes" := JNum (Int 0)]> (body req2))).
  { apply map_eq. intros k.
    destruct (decide (k = "dislikes")) as [->|Hd]; [by rewrite !lookup_insert_eq|].
    rewrite !(lookup_insert_ne _ "dislikes") by done.
    destruct (decide (k = "likes")) as [->|Hl]; [by rewrite !lookup_insert_eq|].
    rewrite !(lookup_insert_ne _ "likes") by done.
    by apply Hsame. }
  by rewrite Hdata.
Qed.

Lemma create_comment_counters_witness :
  create_comment (λ data, mret (prop data "likes", prop data "content"))
    (mk_request {[ "content" := JStr "ngon"; "likes" := JNum (Int 1000) ]} ∅ ∅)
    Scenario.db0 =
  create_comment (λ data, mret (prop data "likes", prop data "content"))
    (mk_request {[ "content" := JStr "ngon" ]} ∅ ∅)
    Scenario.db0.
Proof.
  apply (create_comment_counters (λ data, mret (prop data "likes", prop data "content"))).
  intros k Hl Hd. simpl.
  destruct (decide (k = "content")) as [->|Hc].
  - by rewrite lookup_insert_eq, lookup_singleton_eq.
  - by rewrite lookup_insert_ne, !lookup_singleton_ne.
Defined.

(** ** The is-liked route *)


